(** * eventhorizon: the aggregate registry (aggregate.go)

    A shallow embedding of [RegisterAggregate] and [CreateAggregate] and of
    the package-level state they share: the map [aggregates] and the
    read-write mutex [aggregatesMu].

    Go functions that read and write package state become computations in a
    small monad over the package state, whose outcomes are a normal return, a
    panic, or a goroutine that waits on the mutex for ever.  Every effect of
    the source (the call of NewUUID, the call of the factory, the four mutex
    operations, the read and the write of the map) also appends an event to a
    trace, so that the order of effects can be stated.

    What is taken for granted: a factory is a function value that is not nil
    and that returns, without effects of its own on the registry, either the
    nil interface value or an aggregate whose [AggregateType()] and
    [AggregateID()] return; the mutex is described by who holds it.  A
    reader waits here only for a writer that holds the mutex; Go's RWMutex
    makes it wait for a writer that waits as well, so that Go has fewer
    schedules than the ones considered below, and no other ones. *)

From stdpp Require Import gmap strings list.

(** Line 25: [type AggregateType string]. *)
Abbreviation AggregateType := string (only parsing).

(** The double quote character, and a quoting function that agrees with Go's
    [%q] verb on printable ASCII text without quotes and backslashes.  It is
    used to instantiate the development on concrete runs only. *)
Definition dquote : string := String (Ascii.ascii_of_nat 34) EmptyString.
Definition ascii_q (s : string) : string := dquote +:+ s +:+ dquote.

(** Outcome of running a Go function body. *)
Inductive Outcome (A : Type) : Type :=
| Returns (a : A)          (* the function returns normally *)
| Panics (msg : string)    (* panic(msg), after the deferred calls ran *)
| Blocks.                  (* the goroutine waits on the mutex for ever *)
Arguments Returns {A} a.
Arguments Panics {A} msg.
Arguments Blocks {A}.

(** [sync.RWMutex], by who holds it.  The zero value is an unlocked mutex. *)
Record RWMutex : Type := mkRWMutex {
  mu_writer : bool;   (* held for writing *)
  mu_readers : nat    (* number of holders for reading *)
}.

Definition RWMutex_zero : RWMutex := mkRWMutex false 0.

(** Line 67: [errors.New] makes an error value that carries its text. *)
Record error_value : Type := errors_New { Error : string }.

(** A Go [error]: nil or an error value. *)
Abbreviation error := (option error_value) (only parsing).
Abbreviation nil_error := (@None error_value) (only parsing).

Definition ErrAggregateNotRegistered : error_value :=
  errors_New "aggregate not registered".

Section Registry.

(** The parts of the package that are declared in other files: the
    identifier type, the n-th identifier that [NewUUID] hands out, and the
    [%q] verb of [fmt.Sprintf]. *)
Context {UUID : Type}.
Variable uuid_source : nat -> UUID.
Variable fmt_q : string -> string.

(** Lines 33-61: what the registry observes of a value that implements the
    [Aggregate] interface. *)
Record AggregateObj : Type := mkAggregate {
  Aggregate_AggregateType : AggregateType;
  Aggregate_AggregateID : UUID;
  Aggregate_Version : Z
}.

(** An interface value is nil ([None]) or an object. *)
Definition Aggregate : Type := option AggregateObj.

(** [func(UUID) Aggregate]: a (non-nil) function value. *)
Definition Factory : Type := UUID -> Aggregate.

Inductive Event : Type :=
| EvNewUUID (u : UUID)                          (* NewUUID() returned u *)
| EvFactory (f : Factory) (u : UUID)            (* f(u) was called *)
| EvLock | EvUnlock                             (* aggregatesMu, write side *)
| EvRLock | EvRUnlock                           (* aggregatesMu, read side *)
| EvMapRead (t : AggregateType)                 (* aggregates[t] read *)
| EvMapWrite (t : AggregateType) (f : Factory). (* aggregates[t] = f *)

(** Lines 63-64 and the environment. *)
Record World : Type := mkWorld {
  aggregates : gmap AggregateType Factory;
  aggregatesMu : RWMutex;
  uuids_issued : nat;
  trace : list Event
}.

(** Process start: [make(map...)] and the zero mutex. *)
Definition World_init : World := mkWorld ∅ RWMutex_zero 0 [].

Definition emit (e : Event) (w : World) : World :=
  mkWorld (aggregates w) (aggregatesMu w) (uuids_issued w) (trace w ++ [e]).

Definition set_mu (m : RWMutex) (w : World) : World :=
  mkWorld (aggregates w) m (uuids_issued w) (trace w).

Definition set_aggregates (g : gmap AggregateType Factory) (w : World) : World :=
  mkWorld g (aggregatesMu w) (uuids_issued w) (trace w).

(** ** The monad *)

Definition M (A : Type) : Type := World -> Outcome A * World.

Definition ret {A} (a : A) : M A := fun w => (Returns a, w).

Definition bind {A B} (m : M A) (k : A -> M B) : M B := fun w =>
  match m w with
  | (Returns a, w') => k a w'
  | (Panics msg, w') => (Panics msg, w')
  | (Blocks, w') => (Blocks, w')
  end.

Definition panic {A} (msg : string) : M A := fun w => (Panics msg, w).

(** [defer d; body]: [d] runs when [body] returns or panics, and not when
    the goroutine never leaves [body]. *)
Definition defer {A} (d : M unit) (body : M A) : M A := fun w =>
  match body w with
  | (Blocks, w') => (Blocks, w')
  | (r, w') =>
      match d w' with
      | (Returns _, w'') => (r, w'')
      | (Panics msg, w'') => (Panics msg, w'')
      | (Blocks, w'') => (Blocks, w'')
      end
  end.

Notation "x <- m ;; k" := (bind m (fun x => k))
  (at level 100, m at next level, right associativity).
Notation "m ;;; k" := (bind m (fun _ => k))
  (at level 100, right associativity).

(** ** Primitive effects *)

Definition NewUUID : M UUID := fun w =>
  let u := uuid_source (uuids_issued w) in
  (Returns u,
   emit (EvNewUUID u)
     (mkWorld (aggregates w) (aggregatesMu w) (S (uuids_issued w)) (trace w))).

Definition call (f : Factory) (u : UUID) : M Aggregate := fun w =>
  (Returns (f u), emit (EvFactory f u) w).

(** [aggregatesMu.Lock()]: waits while anyone holds the mutex. *)
Definition Lock : M unit := fun w =>
  let m := aggregatesMu w in
  match mu_writer m, mu_readers m with
  | false, O => (Returns tt, emit EvLock (set_mu (mkRWMutex true 0) w))
  | _, _ => (Blocks, w)
  end.

(** [aggregatesMu.Unlock()]: a run-time error when not held for writing. *)
Definition Unlock : M unit := fun w =>
  let m := aggregatesMu w in
  if mu_writer m
  then (Returns tt, emit EvUnlock (set_mu (mkRWMutex false (mu_readers m)) w))
  else (Panics "sync: Unlock of unlocked RWMutex", w).

(** [aggregatesMu.RLock()]: waits while a writer holds the mutex. *)
Definition RLock : M unit := fun w =>
  let m := aggregatesMu w in
  if mu_writer m then (Blocks, w)
  else (Returns tt, emit EvRLock (set_mu (mkRWMutex false (S (mu_readers m))) w)).

(** [aggregatesMu.RUnlock()]: a run-time error when no reader holds it. *)
Definition RUnlock : M unit := fun w =>
  let m := aggregatesMu w in
  match mu_readers m with
  | S n => (Returns tt, emit EvRUnlock (set_mu (mkRWMutex (mu_writer m) n) w))
  | O => (Panics "sync: RUnlock of unlocked RWMutex", w)
  end.

(** [factory, ok := aggregates[t]], the factory being [Some] exactly when
    [ok] is true. *)
Definition map_lookup (t : AggregateType) : M (option Factory) := fun w =>
  (Returns (aggregates w !! t), emit (EvMapRead t) w).

(** [aggregates[t] = f]. *)
Definition map_store (t : AggregateType) (f : Factory) : M unit := fun w =>
  (Returns tt, emit (EvMapWrite t f) (set_aggregates (<[t := f]> (aggregates w)) w)).

(** ** The two functions of the registry *)

Definition msg_nil : string := "eventhorizon: created aggregate is nil".
Definition msg_empty : string :=
  "eventhorizon: attempt to register empty aggregate type".
Definition msg_duplicate (aggregateType : AggregateType) : string :=
  "eventhorizon: registering duplicate types for " +:+ fmt_q aggregateType.

(** Lines 74-94. *)
Definition RegisterAggregate (factory : Factory) : M unit :=
  id <- NewUUID ;;
  aggregate <- call factory id ;;
  match aggregate with
  | None => panic msg_nil
  | Some a =>
      let aggregateType := Aggregate_AggregateType a in
      if decide (aggregateType = "") then panic msg_empty
      else
        Lock ;;;
        defer Unlock (
          found <- map_lookup aggregateType ;;
          match found with
          | Some _ => panic (msg_duplicate aggregateType)
          | None => map_store aggregateType factory
          end)
  end.

(** Lines 98-105. *)
Definition CreateAggregate (aggregateType : AggregateType) (id : UUID)
  : M (Aggregate * error) :=
  RLock ;;;
  defer RUnlock (
    found <- map_lookup aggregateType ;;
    match found with
    | Some factory =>
        a <- call factory id ;;
        ret (a, nil_error)
    | None => ret (None, Some ErrAggregateNotRegistered)
    end).


(** ** Sequences of calls *)

Inductive Call : Type :=
| CallRegister (factory : Factory)
| CallCreate (aggregateType : AggregateType) (id : UUID).

(** One call, made by a caller that recovers from a panic and goes on.  From
    a world whose mutex is free no call waits ([unlocked_call_returns]). *)
Definition run_call (w : World) (c : Call) : World :=
  match c with
  | CallRegister factory => (RegisterAggregate factory w).2
  | CallCreate aggregateType id => (CreateAggregate aggregateType id w).2
  end.

Definition run_calls (cs : list Call) (w : World) : World := foldl run_call w cs.


(** ** The states the two functions pass through *)

Definition add_trace (es : list Event) (w : World) : World :=
  mkWorld (aggregates w) (aggregatesMu w) (uuids_issued w) (trace w ++ es).

(** The identifier of the probe and the probe itself (line 79). *)
Definition probe_id (w : World) : UUID := uuid_source (uuids_issued w).
Definition probe (factory : Factory) (w : World) : Aggregate := factory (probe_id w).

(** The state after line 79. *)
Definition after_probe (factory : Factory) (w : World) : World :=
  mkWorld (aggregates w) (aggregatesMu w) (S (uuids_issued w))
    (trace w ++ [EvNewUUID (probe_id w); EvFactory factory (probe_id w)]).

(** The events of the read side of the registry, which leave the map as it
    is, and those of the write side. *)
Definition read_side (e : Event) : bool :=
  match e with
  | EvRLock | EvRUnlock | EvMapRead _ | EvFactory _ _ => true
  | _ => false
  end.

Definition write_side (e : Event) : bool :=
  match e with
  | EvLock | EvUnlock | EvMapWrite _ _ => true
  | _ => false
  end.

(** ** Goroutines that run CreateAggregate side by side

    One activation of [CreateAggregate] is cut at its effects: each step
    below is one of the primitive effects of lines 99-104, in the order of the
    function body, and a goroutine that waits on the mutex has no step. *)
Inductive CreatePC : Type :=
| AtRLock                              (* line 99, before RLock returned *)
| AtLookup                             (* line 101, before the map is read *)
| AtCall (factory : Factory)           (* line 102, before factory(id) *)
| AtRUnlock (r : Aggregate * error)    (* return value set, line 100 pending *)
| Returned (r : Aggregate * error).    (* back in the caller *)

Record Goroutine : Type := mkGoroutine {
  g_type : AggregateType;
  g_id : UUID;
  g_pc : CreatePC
}.

Definition at_pc (g : Goroutine) (pc : CreatePC) : Goroutine :=
  mkGoroutine (g_type g) (g_id g) pc.

Definition create_step (g : Goroutine) (w : World) : option (Goroutine * World) :=
  match g_pc g with
  | AtRLock =>
      match RLock w with
      | (Returns _, w') => Some (at_pc g AtLookup, w')
      | _ => None
      end
  | AtLookup =>
      match map_lookup (g_type g) w with
      | (Returns (Some factory), w') => Some (at_pc g (AtCall factory), w')
      | (Returns None, w') =>
          Some (at_pc g (AtRUnlock (None, Some ErrAggregateNotRegistered)), w')
      | _ => None
      end
  | AtCall factory =>
      match call factory (g_id g) w with
      | (Returns a, w') => Some (at_pc g (AtRUnlock (a, nil_error)), w')
      | _ => None
      end
  | AtRUnlock r =>
      match RUnlock w with
      | (Returns _, w') => Some (at_pc g (Returned r), w')
      | _ => None
      end
  | Returned _ => None
  end.

(** A goroutine that runs alone, for at most [fuel] steps. *)
Fixpoint run_goroutine (fuel : nat) (g : Goroutine) (w : World) : Goroutine * World :=
  match fuel with
  | O => (g, w)
  | S fuel' =>
      match create_step g w with
      | Some (g', w') => run_goroutine fuel' g' w'
      | None => (g, w)
      end
  end.

(** The scheduler picks any goroutine that has a step. *)
Inductive pool_step : list Goroutine * World -> list Goroutine * World -> Prop :=
| pool_step_at (i : nat) (g g' : Goroutine) (pool : list Goroutine) (w w' : World) :
    pool !! i = Some g ->
    create_step g w = Some (g', w') ->
    pool_step (pool, w) (<[i := g']> pool, w').

(** One goroutine per request, each about to enter the function. *)
Definition spawn (reqs : list (AggregateType * UUID)) : list Goroutine :=
  (fun r => mkGoroutine r.1 r.2 AtRLock) <$> reqs.

(** Steps a goroutine still has to take, at most. *)
Definition remaining (g : Goroutine) : nat :=
  match g_pc g with
  | AtRLock => 4
  | AtLookup => 3
  | AtCall _ => 2
  | AtRUnlock _ => 1
  | Returned _ => 0
  end.

(** Whether a goroutine holds the mutex for reading. *)
Definition holds_rlock (g : Goroutine) : bool :=
  match g_pc g with
  | AtLookup | AtCall _ | AtRUnlock _ => true
  | AtRLock | Returned _ => false
  end.

Definition has_returned (g : Goroutine) : bool :=
  match g_pc g with
  | Returned _ => true
  | _ => false
  end.

(** What line 101-104 return for a request, given the map. *)
Definition create_result (m : gmap AggregateType Factory) (t : AggregateType) (id : UUID)
  : Aggregate * error :=
  match (m !! t : option Factory) with
  | Some factory => (factory id, nil_error)
  | None => (None, Some ErrAggregateNotRegistered)
  end.

(** The events a goroutine has behind it at each of its control points, in
    order, the map being [m]: the read lock, the read of the map, the call of
    the factory that the map binds (none for a type name it does not bind)
    and the read unlock. *)
Definition own_events (m : gmap AggregateType Factory) (g : Goroutine) : list Event :=
  let called :=
    match (m !! g_type g : option Factory) with
    | Some factory => [EvFactory factory (g_id g)]
    | None => []
    end in
  match g_pc g with
  | AtRLock => []
  | AtLookup => [EvRLock]
  | AtCall _ => [EvRLock; EvMapRead (g_type g)]
  | AtRUnlock _ => [EvRLock; EvMapRead (g_type g)] ++ called
  | Returned _ => [EvRLock; EvMapRead (g_type g)] ++ called ++ [EvRUnlock]
  end.

(** The locking discipline of one activation of [RegisterAggregate], checked
    along the events it adds: the map is read and written only while the
    write lock is held, a factory is called only while it is not, and the
    read side of the mutex is not used. *)
Fixpoint register_discipline (held : bool) (es : list Event) : bool :=
  match es with
  | [] => negb held
  | EvLock :: es' => negb held && register_discipline true es'
  | EvUnlock :: es' => held && register_discipline false es'
  | EvMapRead _ :: es' | EvMapWrite _ _ :: es' => held && register_discipline held es'
  | EvFactory _ _ :: es' => negb held && register_discipline held es'
  | EvNewUUID _ :: es' => register_discipline held es'
  | EvRLock :: _ | EvRUnlock :: _ => false
  end.

(** A panic message names a type: the quoted type name occurs in it. *)
Definition names (msg : string) (t : AggregateType) : Prop :=
  exists pre post, msg = pre +:+ fmt_q t +:+ post.

(** ** Measures and the invariant of a pool of goroutines *)

Definition holders (pool : list Goroutine) : nat :=
  sum_list_with (fun g => if holds_rlock g then 1 else 0) pool.

Definition steps_left (pool : list Goroutine) : nat := sum_list_with remaining pool.

(** What a goroutine that serves request [r] can have in hand. *)
Definition goroutine_ok (m : gmap AggregateType Factory)
    (r : AggregateType * UUID) (g : Goroutine) : Prop :=
  g_type g = r.1 /\ g_id g = r.2 /\
  match g_pc g with
  | AtRLock | AtLookup => True
  | AtCall factory => m !! r.1 = Some factory
  | AtRUnlock res | Returned res => res = create_result m r.1 r.2
  end.

(** The invariant of a pool that started from the world [w0]. *)
Definition pool_inv (w0 : World) (reqs : list (AggregateType * UUID))
    (s : list Goroutine * World) : Prop :=
  aggregates s.2 = aggregates w0 /\
  uuids_issued s.2 = uuids_issued w0 /\
  mu_writer (aggregatesMu s.2) = false /\
  mu_readers (aggregatesMu s.2) = mu_readers (aggregatesMu w0) + holders s.1 /\
  Forall2 (goroutine_ok (aggregates w0)) reqs s.1 /\
  exists es, trace s.2 = trace w0 ++ es /\ Forall (fun e => read_side e = true) es.

(** The pool after the scheduler ran the goroutines listed in [sched], one
    step each, in that order; [None] when it picked one that has no step. *)
Fixpoint run_schedule (sched : list nat) (pool : list Goroutine) (w : World)
  : option (list Goroutine * World) :=
  match sched with
  | [] => Some (pool, w)
  | i :: sched' =>
      match pool !! i with
      | Some g =>
          match create_step g w with
          | Some (g', w') => run_schedule sched' (<[i := g']> pool) w'
          | None => None
          end
      | None => None
      end
  end.

(** The reading of "every panic of a registration names the offending type"
    that is settled below: the probe has a type name and the message names it. *)
Definition every_panic_names_type : Prop :=
  forall (w : World) (factory : Factory) (msg : string),
    (RegisterAggregate factory w).1 = Panics msg ->
    exists a, probe factory w = Some a /\ names msg (Aggregate_AggregateType a).

(** ** More on sequences of calls *)

Definition is_register (c : Call) : bool :=
  match c with
  | CallRegister _ => true
  | CallCreate _ _ => false
  end.

(** The number of registrations in a sequence of calls. *)
Definition registrations (cs : list Call) : nat :=
  sum_list_with (fun c => if is_register c then 1 else 0) cs.

(** How one call ends, whatever it returns. *)
Definition call_outcome (w : World) (c : Call) : Outcome unit :=
  match c with
  | CallRegister factory => (RegisterAggregate factory w).1
  | CallCreate aggregateType id =>
      match (CreateAggregate aggregateType id w).1 with
      | Returns _ => Returns tt
      | Panics msg => Panics msg
      | Blocks => Blocks
      end
  end.

(** The locking discipline of one activation of [CreateAggregate], checked
    along the events it adds: the map is read and the factory is called only
    while the read lock is held, and nothing else happens: no identifier is
    drawn, the map is not written, the write side of the mutex is not used. *)
Fixpoint create_discipline (held : bool) (es : list Event) : bool :=
  match es with
  | [] => negb held
  | EvRLock :: es' => negb held && create_discipline true es'
  | EvRUnlock :: es' => held && create_discipline false es'
  | EvMapRead _ :: es' | EvFactory _ _ :: es' => held && create_discipline held es'
  | EvNewUUID _ :: _ | EvMapWrite _ _ :: _ | EvLock :: _ | EvUnlock :: _ => false
  end.

(** The calls of factories in a trace, in order. *)
Definition factory_calls (es : list Event) : list (Factory * UUID) :=
  omap (fun e => match e with EvFactory f u => Some (f, u) | _ => None end) es.

(** A binding that went through the checks of lines 79-86: the type name is
    not empty, and the factory built, for an identifier that [NewUUID] handed
    out, an aggregate that reports the type name. *)
Definition validated (w : World) (t : AggregateType) (factory : Factory) : Prop :=
  t <> "" /\
  exists n a, n < uuids_issued w /\
    factory (uuid_source n) = Some a /\ Aggregate_AggregateType a = t.

(** A factory all of whose aggregates report the type name [t]. *)
Definition builds_type (factory : Factory) (t : AggregateType) : Prop :=
  forall u, exists a, factory u = Some a /\ Aggregate_AggregateType a = t.

(** What the registration of a factory that builds type [r.1] makes of the
    map, when the mutex is [mu]. *)
Definition registered_map (mu : RWMutex) (m : gmap AggregateType Factory)
    (r : AggregateType * Factory) : gmap AggregateType Factory :=
  if decide (r.1 = "") then m
  else
    match mu_writer mu, mu_readers mu with
    | false, O =>
        match (m !! r.1 : option Factory) with
        | Some _ => m
        | None => <[r.1 := r.2]> m
        end
    | _, _ => m
    end.

(** ** Goroutines that run either function side by side

    One activation of [RegisterAggregate] is cut at its effects like the one
    of [CreateAggregate] above: each step is one primitive effect of lines
    79-93 with the tests that follow it, and a goroutine that waits on the
    mutex has no step.  A goroutine that panics ends in [RDone (Panics _)];
    what its caller makes of the panic is not part of the model. *)
Inductive RegisterPC : Type :=
| RAtNewUUID                         (* line 79, before NewUUID() *)
| RAtFactory (id : UUID)             (* line 79, before factory(id) *)
| RAtLock (t : AggregateType)        (* line 88, before Lock returned *)
| RAtLookup (t : AggregateType)      (* line 90, before the map is read *)
| RAtStore (t : AggregateType)       (* line 93, before the map is written *)
| RAtUnlock (r : Outcome unit)       (* outcome set, line 89 pending *)
| RDone (r : Outcome unit).          (* back in the caller *)

Definition register_step (factory : Factory) (pc : RegisterPC) (w : World)
  : option (RegisterPC * World) :=
  match pc with
  | RAtNewUUID =>
      match NewUUID w with
      | (Returns id, w') => Some (RAtFactory id, w')
      | _ => None
      end
  | RAtFactory id =>
      match call factory id w with
      | (Returns None, w') => Some (RDone (Panics msg_nil), w')
      | (Returns (Some a), w') =>
          let aggregateType := Aggregate_AggregateType a in
          if decide (aggregateType = "") then Some (RDone (Panics msg_empty), w')
          else Some (RAtLock aggregateType, w')
      | _ => None
      end
  | RAtLock t =>
      match Lock w with
      | (Returns _, w') => Some (RAtLookup t, w')
      | _ => None
      end
  | RAtLookup t =>
      match map_lookup t w with
      | (Returns (Some _), w') => Some (RAtUnlock (Panics (msg_duplicate t)), w')
      | (Returns None, w') => Some (RAtStore t, w')
      | _ => None
      end
  | RAtStore t =>
      match map_store t factory w with
      | (Returns _, w') => Some (RAtUnlock (Returns tt), w')
      | _ => None
      end
  | RAtUnlock r =>
      match Unlock w with
      | (Returns _, w') => Some (RDone r, w')
      | _ => None
      end
  | RDone _ => None
  end.

(** A registration that runs alone, for at most [fuel] steps. *)
Fixpoint run_register (fuel : nat) (factory : Factory) (pc : RegisterPC) (w : World)
  : RegisterPC * World :=
  match fuel with
  | O => (pc, w)
  | S fuel' =>
      match register_step factory pc w with
      | Some (pc', w') => run_register fuel' factory pc' w'
      | None => (pc, w)
      end
  end.

Inductive Task : Type :=
| Creating (g : Goroutine)
| Registering (factory : Factory) (pc : RegisterPC).

Definition task_step (k : Task) (w : World) : option (Task * World) :=
  match k with
  | Creating g =>
      match create_step g w with
      | Some (g', w') => Some (Creating g', w')
      | None => None
      end
  | Registering factory pc =>
      match register_step factory pc w with
      | Some (pc', w') => Some (Registering factory pc', w')
      | None => None
      end
  end.

(** The scheduler picks any task that has a step. *)
Inductive tasks_step : list Task * World -> list Task * World -> Prop :=
| tasks_step_at (i : nat) (k k' : Task) (tasks : list Task) (w w' : World) :
    tasks !! i = Some k ->
    task_step k w = Some (k', w') ->
    tasks_step (tasks, w) (<[i := k']> tasks, w').

(** One task per call, each about to enter its function. *)
Definition start_task (c : Call) : Task :=
  match c with
  | CallRegister factory => Registering factory RAtNewUUID
  | CallCreate aggregateType id => Creating (mkGoroutine aggregateType id AtRLock)
  end.

(** The tasks after the scheduler ran those listed in [sched], one step
    each; [None] when it picked one that has no step. *)
Fixpoint run_tasks (sched : list nat) (tasks : list Task) (w : World)
  : option (list Task * World) :=
  match sched with
  | [] => Some (tasks, w)
  | i :: sched' =>
      match tasks !! i with
      | Some k =>
          match task_step k w with
          | Some (k', w') => run_tasks sched' (<[i := k']> tasks) w'
          | None => None
          end
      | None => None
      end
  end.

(** Between [Lock] and [Unlock], lines 88-93. *)
Definition in_write_section (k : Task) : bool :=
  match k with
  | Registering _ (RAtLookup _ | RAtStore _ | RAtUnlock _) => true
  | _ => false
  end.

(** Between [RLock] and [RUnlock], lines 99-104. *)
Definition in_read_section (k : Task) : bool :=
  match k with
  | Creating g => holds_rlock g
  | Registering _ _ => false
  end.

(** About to take, or waiting for, the write side and the read side. *)
Definition at_Lock (k : Task) : bool :=
  match k with
  | Registering _ (RAtLock _) => true
  | _ => false
  end.

Definition at_RLock (k : Task) : bool :=
  match k with
  | Creating g => match g_pc g with AtRLock => true | _ => false end
  | Registering _ _ => false
  end.

Definition task_done (k : Task) : bool :=
  match k with
  | Creating g => has_returned g
  | Registering _ (RDone _) => true
  | Registering _ _ => false
  end.

(** Steps a task still has to take, at most. *)
Definition task_steps_left (k : Task) : nat :=
  match k with
  | Creating g => remaining g
  | Registering _ pc =>
      match pc with
      | RAtNewUUID => 6
      | RAtFactory _ => 5
      | RAtLock _ => 4
      | RAtLookup _ => 3
      | RAtStore _ => 2
      | RAtUnlock _ => 1
      | RDone _ => 0
      end
  end.

Definition writers_in (tasks : list Task) : nat :=
  sum_list_with (fun k => if in_write_section k then 1 else 0) tasks.

Definition readers_in (tasks : list Task) : nat :=
  sum_list_with (fun k => if in_read_section k then 1 else 0) tasks.

Definition tasks_left (tasks : list Task) : nat := sum_list_with task_steps_left tasks.

(** The writes of [aggregates[t]] among the events [es]. *)
Definition map_writes (t : AggregateType) (es : list Event) : nat :=
  sum_list_with
    (fun e => match e with
              | EvMapWrite t' _ => if decide (t' = t) then 1 else 0
              | _ => 0
              end) es.

(** What a creation can have returned, between the map [m0] at the start and
    the map [m] now. *)
Definition result_ok (m0 m : gmap AggregateType Factory) (t : AggregateType) (id : UUID)
    (res : Aggregate * error) : Prop :=
  res = (None, Some ErrAggregateNotRegistered) /\ m0 !! t = None \/
  exists factory : Factory, m !! t = Some factory /\ res = (factory id, nil_error).

(** How a registration of [factory] can have ended, the map being [m]. *)
Definition outcome_ok (m : gmap AggregateType Factory) (factory : Factory)
    (r : Outcome unit) : Prop :=
  match r with
  | Returns _ => exists t, t <> "" /\ m !! t = Some factory
  | Panics msg =>
      msg = msg_nil \/ msg = msg_empty \/
      exists t, msg = msg_duplicate t /\ is_Some (m !! t)
  | Blocks => False
  end.

(** What the task of call [c] can have in hand. *)
Definition task_ok (m0 m : gmap AggregateType Factory) (c : Call) (k : Task) : Prop :=
  match c, k with
  | CallCreate t id, Creating g =>
      g_type g = t /\ g_id g = id /\
      match g_pc g with
      | AtRLock | AtLookup => True
      | AtCall factory => m !! t = Some factory
      | AtRUnlock res | Returned res => result_ok m0 m t id res
      end
  | CallRegister factory, Registering factory' pc =>
      factory' = factory /\
      match pc with
      | RAtNewUUID | RAtFactory _ => True
      | RAtLock t | RAtLookup t => t <> ""
      | RAtStore t => t <> "" /\ m !! t = None
      | RAtUnlock r | RDone r => outcome_ok m factory r
      end
  | _, _ => False
  end.

(** The events since the world [w0]: each type name is written at most once,
    a written factory is the one the map binds, and a name that [w0] binds is
    not written. *)
Definition trace_ok (w0 w : World) : Prop :=
  exists es,
    trace w = trace w0 ++ es /\
    (forall t, map_writes t es <= 1) /\
    (forall t f, EvMapWrite t f ∈ es -> aggregates w !! t = Some f) /\
    (forall t, is_Some (aggregates w0 !! t) -> map_writes t es = 0).

Definition writer_bit (m : RWMutex) : nat := if mu_writer m then 1 else 0.

(** The invariant of the tasks of [calls] that started from the world [w0]. *)
Record tasks_inv (w0 : World) (calls : list Call) (s : list Task * World) : Prop := {
  inv_writer : writer_bit (aggregatesMu s.2) = writers_in s.1;
  inv_readers : mu_readers (aggregatesMu s.2) = readers_in s.1;
  inv_exclusive : mu_writer (aggregatesMu s.2) = true -> mu_readers (aggregatesMu s.2) = 0;
  inv_kept : aggregates w0 ⊆ aggregates s.2;
  inv_tasks :
    forall i k, s.1 !! i = Some k ->
      exists c, calls !! i = Some c /\ task_ok (aggregates w0) (aggregates s.2) c k;
  inv_trace : trace_ok w0 s.2
}.

End Registry.

Arguments AggregateObj : clear implicits.
Arguments Aggregate : clear implicits.
Arguments Factory : clear implicits.
Arguments Event : clear implicits.
Arguments World : clear implicits.
Arguments Call : clear implicits.
Arguments Goroutine : clear implicits.
Arguments CreatePC : clear implicits.
Arguments msg_duplicate : simpl never.
Arguments Task : clear implicits.
Arguments RegisterPC : clear implicits.

(** ** A concrete instance, for the runs that the statements are tried on *)
Module Demo.

(** Identifiers are numbers and [NewUUID] counts up from 1000. *)
Definition uuids (n : nat) : nat := 1000 + n.

Definition order : Factory nat := fun id => Some (mkAggregate "Order" id 0).

(** A second factory for the same type name. *)
Definition order_v7 : Factory nat := fun id => Some (mkAggregate "Order" id 7).

Definition invoice : Factory nat := fun id => Some (mkAggregate "Invoice" id 0).

Definition nil_factory : Factory nat := fun _ => None.

Definition unnamed : Factory nat := fun id => Some (mkAggregate "" id 0).

(** A factory that builds an aggregate for identifier 1000 only. *)
Definition only_1000 : Factory nat := fun id =>
  if decide (id = 1000) then Some (mkAggregate "Invoice" id 0) else None.

Definition register (factory : Factory nat) : M unit :=
  RegisterAggregate uuids ascii_q factory.

(** The world after [order] was registered at process start, and after
    [invoice] was registered next. *)
Definition w_order : World nat := (register order World_init).2.
Definition w_two : World nat := (register invoice w_order).2.

(** Three calls of [CreateAggregate] side by side, and a schedule that
    interleaves them to the end. *)
Definition requests : list (AggregateType * nat) :=
  [("Order", 1); ("Invoice", 2); ("Order", 3)].
Definition schedule : list nat := [0; 1; 0; 2; 1; 2; 2; 0; 1; 1; 0; 2].

(** Two registrations for one type name and two creations side by side, from
    the world where [invoice] is registered.  After [race_first] the second
    registration is between [Lock] and [Unlock], about to write the map, the
    first one is at [Lock] and one creation is at [RLock]; [race_rest] runs
    them to the end. *)
Definition w_invoice : World nat := (register invoice World_init).2.
Definition race : list (Call nat) :=
  [CallRegister order; CallCreate "Order" 1; CallRegister order_v7;
   CallCreate "Invoice" 2].
Definition race_first : list nat := [0; 2; 0; 2; 3; 3; 3; 3; 2; 2].
Definition race_rest : list nat := [2; 2; 1; 1; 1; 1; 0; 0; 0].

(** Three registrations in two orders; the third factory is refused. *)
Definition three : list (AggregateType * Factory nat) :=
  [("Order", order); ("Invoice", invoice); ("", unnamed)].
Definition three_rotated : list (AggregateType * Factory nat) :=
  [("Invoice", invoice); ("", unnamed); ("Order", order)].

(** A caller that goes on after panics. *)
Definition after_panics : list (Call nat) :=
  [CallRegister nil_factory; CallRegister order; CallRegister order_v7;
   CallRegister invoice].

End Demo.

Lemma string_append_empty (s : string) : s +:+ "" = s.
Proof.
  induction s as [|c s IH]; [reflexivity|].
  change (String c (s +:+ "") = String c s). by rewrite IH.
Qed.

Section RegistryFacts.

Context {UUID : Type}.
Variable uuid_source : nat -> UUID.
Variable fmt_q : string -> string.

Implicit Types (w : World UUID) (factory : Factory UUID) (id : UUID).
Implicit Types (aggregateType t : string).

Lemma RegisterAggregate_unfold factory w :
  RegisterAggregate uuid_source fmt_q factory w =
  match probe uuid_source factory w with
  | None => (Panics msg_nil, after_probe uuid_source factory w)
  | Some a =>
      let t := Aggregate_AggregateType a in
      if decide (t = "") then (Panics msg_empty, after_probe uuid_source factory w)
      else
        match mu_writer (aggregatesMu w), mu_readers (aggregatesMu w) with
        | false, O =>
            match aggregates w !! t with
            | Some _ =>
                (Panics (msg_duplicate fmt_q t),
                 add_trace [EvLock; EvMapRead t; EvUnlock]
                   (after_probe uuid_source factory w))
            | None =>
                (Returns tt,
                 add_trace [EvLock; EvMapRead t; EvMapWrite t factory; EvUnlock]
                   (set_aggregates (<[t := factory]> (aggregates w))
                      (after_probe uuid_source factory w)))
            end
        | _, _ => (Blocks, after_probe uuid_source factory w)
        end
  end.
Proof.
  destruct w as [g [wr rd] n tr].
  unfold RegisterAggregate, probe, probe_id, after_probe, bind, NewUUID, call, emit.
  cbn [aggregates aggregatesMu uuids_issued trace].
  rewrite <- app_assoc. cbn [app].
  destruct (factory (uuid_source n)) as [a|]; [|reflexivity].
  cbn zeta. destruct (decide (Aggregate_AggregateType a = "")); [reflexivity|].
  unfold Lock, defer, bind, map_lookup, map_store, Unlock, panic, emit, set_mu,
    set_aggregates, add_trace.
  cbn [aggregates aggregatesMu uuids_issued trace mu_writer mu_readers].
  destruct wr; [reflexivity|]. destruct rd; [|reflexivity].
  simpl. destruct (g !! Aggregate_AggregateType a);
    simpl; repeat rewrite <- app_assoc; reflexivity.
Qed.

Lemma CreateAggregate_unfold aggregateType id w :
  CreateAggregate aggregateType id w =
  if mu_writer (aggregatesMu w) then (Blocks, w)
  else
    match (aggregates w !! aggregateType : option (Factory UUID)) with
    | Some factory =>
        (Returns (factory id, None),
         add_trace [EvRLock; EvMapRead aggregateType; EvFactory factory id; EvRUnlock] w)
    | None =>
        (Returns (None, Some ErrAggregateNotRegistered),
         add_trace [EvRLock; EvMapRead aggregateType; EvRUnlock] w)
    end.
Proof.
  destruct w as [g [wr rd] n tr].
  unfold CreateAggregate, bind, RLock, defer, map_lookup, call, ret, RUnlock, emit,
    set_mu, add_trace.
  cbn [aggregates aggregatesMu uuids_issued trace mu_writer mu_readers].
  destruct wr; [reflexivity|].
  simpl. destruct (g !! aggregateType);
    simpl; repeat rewrite <- app_assoc; reflexivity.
Qed.

(** Case analysis on a registration, after [RegisterAggregate_unfold]. *)
Ltac register_cases factory w :=
  rewrite (RegisterAggregate_unfold factory w);
  let a := fresh "a" in
  let Hp := fresh "Hprobe" in
  destruct (probe uuid_source factory w) as [a|] eqn:Hp; cbn zeta;
  [ let Ht := fresh "Htype" in
    destruct (decide (Aggregate_AggregateType a = "")) as [Ht|Ht];
    [ | let Hw := fresh "Hwriter" in
        let Hr := fresh "Hreaders" in
        let Hl := fresh "Hlookup" in
        destruct (mu_writer (aggregatesMu w)) eqn:Hw;
        [ | destruct (mu_readers (aggregatesMu w)) eqn:Hr;
            [ destruct (aggregates w !! Aggregate_AggregateType a) eqn:Hl | ] ] ]
  | ].

Lemma CreateAggregate_aggregates aggregateType id w :
  aggregates (CreateAggregate aggregateType id w).2 = aggregates w.
Proof.
  rewrite CreateAggregate_unfold.
  destruct (mu_writer (aggregatesMu w)); [reflexivity|].
  destruct (aggregates w !! aggregateType); reflexivity.
Qed.

Lemma CreateAggregate_mu aggregateType id w :
  aggregatesMu (CreateAggregate aggregateType id w).2 = aggregatesMu w.
Proof.
  rewrite CreateAggregate_unfold.
  destruct (mu_writer (aggregatesMu w)); [reflexivity|].
  destruct (aggregates w !! aggregateType); reflexivity.
Qed.

Lemma RegisterAggregate_mu factory w :
  aggregatesMu (RegisterAggregate uuid_source fmt_q factory w).2 = aggregatesMu w.
Proof. register_cases factory w; reflexivity. Qed.

Lemma RegisterAggregate_lookup_kept factory w t f :
  aggregates w !! t = Some f ->
  aggregates (RegisterAggregate uuid_source fmt_q factory w).2 !! t = Some f.
Proof.
  intros Hf. register_cases factory w; cbn; try assumption.
  rewrite lookup_insert_ne; [assumption|]. congruence.
Qed.

Lemma run_calls_cons c calls w :
  run_calls uuid_source fmt_q (c :: calls) w =
  run_calls uuid_source fmt_q calls (run_call uuid_source fmt_q w c).
Proof. reflexivity. Qed.

Lemma run_calls_lookup_kept calls w t f :
  aggregates w !! t = Some f ->
  aggregates (run_calls uuid_source fmt_q calls w) !! t = Some f.
Proof.
  revert w. induction calls as [|c calls IH]; intros w Hf; [assumption|].
  rewrite run_calls_cons. apply IH. destruct c as [factory|t' id]; cbn.
  - by apply RegisterAggregate_lookup_kept.
  - by rewrite CreateAggregate_aggregates.
Qed.

Lemma run_calls_mu calls w :
  aggregatesMu (run_calls uuid_source fmt_q calls w) = aggregatesMu w.
Proof.
  revert w. induction calls as [|c calls IH]; intros w; [reflexivity|].
  rewrite run_calls_cons, IH. destruct c; cbn.
  - apply RegisterAggregate_mu.
  - apply CreateAggregate_mu.
Qed.

Lemma run_calls_unlocked calls :
  aggregatesMu (run_calls uuid_source fmt_q calls World_init) = RWMutex_zero.
Proof. by rewrite run_calls_mu. Qed.

Lemma unlocked_call_returns w :
  aggregatesMu w = RWMutex_zero ->
  (forall factory, (RegisterAggregate uuid_source fmt_q factory w).1 <> Blocks) /\
  (forall aggregateType id,
     exists res, (CreateAggregate aggregateType id w).1 = Returns res).
Proof.
  intros Hmu. split.
  - intros factory. rewrite RegisterAggregate_unfold, Hmu.
    destruct (probe uuid_source factory w) as [a|]; cbn; [|done].
    destruct (decide (Aggregate_AggregateType a = "")); [done|].
    by destruct (aggregates w !! Aggregate_AggregateType a).
  - intros aggregateType id. rewrite CreateAggregate_unfold, Hmu. cbn.
    destruct (aggregates w !! aggregateType); eauto.
Qed.

Lemma RegisterAggregate_discipline factory w :
  exists es,
    trace (RegisterAggregate uuid_source fmt_q factory w).2 = trace w ++ es /\
    register_discipline false es = true.
Proof.
  register_cases factory w; cbn; rewrite <- ?app_assoc; eexists; split;
    reflexivity.
Qed.

Lemma run_goroutine_CreateAggregate aggregateType id w :
  mu_writer (aggregatesMu w) = false ->
  exists res w',
    CreateAggregate aggregateType id w = (Returns res, w') /\
    res = create_result (aggregates w) aggregateType id /\
    run_goroutine 4 (mkGoroutine aggregateType id AtRLock) w =
    (mkGoroutine aggregateType id (Returned res), w').
Proof.
  intros Hw. rewrite CreateAggregate_unfold, Hw.
  destruct w as [m [wr rd] n tr]. cbn in Hw. subst wr.
  unfold create_result. cbn.
  destruct (m !! aggregateType) as [factory|] eqn:El.
  - eexists _, _. split_and!; [reflexivity|reflexivity|].
    cbn. unfold at_pc, emit, set_mu, add_trace; cbn. by rewrite <- !app_assoc.
  - eexists _, _. split_and!; [reflexivity|reflexivity|].
    cbn. unfold at_pc, emit, set_mu, add_trace; cbn. by rewrite <- !app_assoc.
Qed.

(** ** The registry, one call at a time *)

(** C1. Once [RegisterAggregate factory] has returned, whatever calls
    follow, [CreateAggregate] of the probe's type name and any [id] returns
    [factory id] with a nil error; and when every instance that the factory
    builds reports that type name and the identifier it was built for, so
    does the returned instance. *)
Theorem CreateAggregate_registered w factory w1 calls id :
  RegisterAggregate uuid_source fmt_q factory w = (Returns tt, w1) ->
  exists a,
    probe uuid_source factory w = Some a /\
    let name := Aggregate_AggregateType a in
    let r := CreateAggregate name id (run_calls uuid_source fmt_q calls w1) in
    r.1 = Returns (factory id, None) /\
    ((forall u inst, factory u = Some inst ->
        Aggregate_AggregateType inst = name /\ Aggregate_AggregateID inst = u) ->
     forall inst err, r.1 = Returns (Some inst, err) ->
        Aggregate_AggregateType inst = name /\ Aggregate_AggregateID inst = id).
Proof.
  revert w1. register_cases factory w; intros w1 Hreg; try discriminate.
  injection Hreg as <-. exists a. split; [reflexivity|]. cbn zeta.
  set (w2 := run_calls _ _ _ _).
  assert (Hmu : aggregatesMu w2 = aggregatesMu w) by (unfold w2; by rewrite run_calls_mu).
  assert (Hf : aggregates w2 !! Aggregate_AggregateType a = Some factory).
  { unfold w2. apply run_calls_lookup_kept. cbn. apply lookup_insert_eq. }
  rewrite CreateAggregate_unfold, Hmu, Hwriter, Hf. cbn.
  split; [reflexivity|].
  intros Huniform inst err [= Hinst _]. by apply Huniform.
Qed.

(** C2. For a type name that has no factory, [CreateAggregate] never
    panics, and when no writer holds the mutex it returns a nil instance
    together with [ErrAggregateNotRegistered]. *)
Theorem CreateAggregate_not_registered w aggregateType id :
  aggregates w !! aggregateType = None ->
  (forall msg, (CreateAggregate aggregateType id w).1 <> Panics msg) /\
  (mu_writer (aggregatesMu w) = false ->
   CreateAggregate aggregateType id w =
   (Returns (None, Some ErrAggregateNotRegistered),
    add_trace [EvRLock; EvMapRead aggregateType; EvRUnlock] w)).
Proof.
  intros Hnone. rewrite CreateAggregate_unfold, Hnone.
  destruct (mu_writer (aggregatesMu w)); split; try done.
Qed.

(** C3. When the probe of a factory reports a type name that the map
    already binds, to the same factory or to another one, and the mutex is
    free, [RegisterAggregate] panics; the message is the one of line 91 unless
    the name is empty. *)
Theorem RegisterAggregate_duplicate w factory a registered :
  aggregatesMu w = RWMutex_zero ->
  probe uuid_source factory w = Some a ->
  aggregates w !! Aggregate_AggregateType a = Some registered ->
  exists msg,
    (RegisterAggregate uuid_source fmt_q factory w).1 = Panics msg /\
    (Aggregate_AggregateType a <> "" ->
     msg = msg_duplicate fmt_q (Aggregate_AggregateType a)).
Proof.
  intros Hmu Hp Hreg. rewrite RegisterAggregate_unfold, Hp, Hmu. cbn.
  rewrite Hreg.
  destruct (decide (Aggregate_AggregateType a = "")); cbn; eauto.
  eexists; split; [reflexivity|done].
Qed.

(** C4. [RegisterAggregate] panics when the probe is nil and when the probe
    reports the empty type name, with the messages of lines 81 and 85. *)
Theorem RegisterAggregate_invalid_probe w factory :
  (probe uuid_source factory w = None \/
   exists a, probe uuid_source factory w = Some a /\ Aggregate_AggregateType a = "") ->
  (RegisterAggregate uuid_source fmt_q factory w).1 =
  Panics (match probe uuid_source factory w with
          | None => msg_nil
          | Some _ => msg_empty
          end).
Proof.
  intros [Hnil | (a & Ha & Hempty)]; rewrite RegisterAggregate_unfold.
  - by rewrite Hnil.
  - rewrite Ha. cbn zeta. by rewrite decide_True.
Qed.

(** C5. A binding of the map survives every sequence of calls, and
    [CreateAggregate] leaves the whole map as it found it. *)
Theorem registry_binding_kept calls w t factory :
  aggregates w !! t = Some factory ->
  aggregates (run_calls uuid_source fmt_q calls w) !! t = Some factory /\
  (forall w' aggregateType id,
     aggregates (CreateAggregate aggregateType id w').2 = aggregates w').
Proof.
  intros Hf. split; [by apply run_calls_lookup_kept|].
  intros. apply CreateAggregate_aggregates.
Qed.

(** C6. [RegisterAggregate] changes the map only when it returns, and then
    by one insertion at a type name that was free; in every other case the
    map is the one it started from.  The mutex is released in all cases. *)
Theorem RegisterAggregate_atomic w factory :
  let r := RegisterAggregate uuid_source fmt_q factory w in
  aggregatesMu r.2 = aggregatesMu w /\
  match r.1 with
  | Returns _ =>
      exists a,
        probe uuid_source factory w = Some a /\
        aggregates w !! Aggregate_AggregateType a = None /\
        aggregates r.2 = <[Aggregate_AggregateType a := factory]> (aggregates w)
  | Panics _ | Blocks => aggregates r.2 = aggregates w
  end.
Proof.
  cbn zeta. split; [apply RegisterAggregate_mu|].
  register_cases factory w; cbn; try reflexivity. eauto.
Qed.


(** C8, amended. A registration that panics does so in one of three ways: the
    probe is nil and the message is the fixed text of line 81; the probe
    reports the empty type name and the message is the fixed text of line 85;
    the type name is bound already and the message of line 91 names it. *)
Theorem RegisterAggregate_panic_message w factory msg :
  (RegisterAggregate uuid_source fmt_q factory w).1 = Panics msg ->
  probe uuid_source factory w = None /\ msg = msg_nil \/
  (exists a, probe uuid_source factory w = Some a /\
     Aggregate_AggregateType a = "" /\ msg = msg_empty) \/
  (exists a, probe uuid_source factory w = Some a /\
     Aggregate_AggregateType a <> "" /\
     is_Some (aggregates w !! Aggregate_AggregateType a) /\
     msg = msg_duplicate fmt_q (Aggregate_AggregateType a) /\
     names fmt_q msg (Aggregate_AggregateType a)).
Proof.
  register_cases factory w; cbn; intros [= <-].
  - right; left. eauto.
  - right; right. exists a. split_and!; eauto.
    exists "eventhorizon: registering duplicate types for ", "".
    unfold msg_duplicate. by rewrite string_append_empty.
  - by left.
Qed.

(** C10. [CreateAggregate] hands on what the factory returns: a factory
    that passed registration and returns nil for [id] makes [CreateAggregate]
    return a nil instance with a nil error. *)
Theorem CreateAggregate_no_validation w factory w1 a id :
  RegisterAggregate uuid_source fmt_q factory w = (Returns tt, w1) ->
  probe uuid_source factory w = Some a ->
  factory id = None ->
  CreateAggregate (Aggregate_AggregateType a) id w1 =
  (Returns (None, None),
   add_trace [EvRLock; EvMapRead (Aggregate_AggregateType a);
              EvFactory factory id; EvRUnlock] w1).
Proof.
  intros Hreg Hp Hnil. revert Hreg. rewrite RegisterAggregate_unfold, Hp. cbn zeta.
  destruct (decide (Aggregate_AggregateType a = "")); [discriminate|].
  destruct (mu_writer (aggregatesMu w)) eqn:Hw; [discriminate|].
  destruct (mu_readers (aggregatesMu w)); [|discriminate].
  destruct (aggregates w !! Aggregate_AggregateType a); [discriminate|].
  intros [= <-]. rewrite CreateAggregate_unfold. cbn.
  by rewrite Hw, lookup_insert_eq, Hnil.
Qed.

(** ** Goroutines side by side *)

Implicit Types (g : Goroutine UUID) (pool : list (Goroutine UUID)).
Implicit Types (reqs : list (AggregateType * UUID)).

Lemma sum_list_with_insert {A} (f : A -> nat) (l : list A) i x y :
  l !! i = Some x ->
  sum_list_with f (<[i := y]> l) + f x = sum_list_with f l + f y.
Proof.
  revert i. induction l as [|z l IH]; intros [|i] Hi; try discriminate.
  - injection Hi as ->. simpl. lia.
  - simpl in *. specialize (IH i Hi). lia.
Qed.

Lemma sum_list_with_lookup {A} (f : A -> nat) (l : list A) i x :
  l !! i = Some x -> f x <= sum_list_with f l.
Proof.
  revert i. induction l as [|z l IH]; intros [|i] Hi; try discriminate.
  - injection Hi as ->. simpl. lia.
  - simpl in *. specialize (IH i Hi). lia.
Qed.

Lemma spawn_holders reqs : holders (spawn reqs) = 0.
Proof. induction reqs as [|r reqs IH]; [reflexivity|]. exact IH. Qed.

Lemma spawn_steps_left reqs : steps_left (spawn reqs) = 4 * length reqs.
Proof.
  induction reqs as [|r reqs IH]; [reflexivity|].
  change (steps_left (spawn (r :: reqs))) with (4 + steps_left (spawn reqs)).
  rewrite IH. cbn [length]. lia.
Qed.

Lemma pool_inv_start w0 reqs :
  mu_writer (aggregatesMu w0) = false -> pool_inv w0 reqs (spawn reqs, w0).
Proof.
  intros Hw. unfold pool_inv; cbn [fst snd]. rewrite spawn_holders.
  split_and!; [done|done|done|lia| |].
  - induction reqs as [|r reqs IH]; constructor; [by repeat split|exact IH].
  - exists []. by rewrite app_nil_r.
Qed.

Lemma create_result_found (m : gmap AggregateType (Factory UUID)) t id factory :
  m !! t = Some factory -> create_result m t id = (factory id, None).
Proof. intros H. unfold create_result. by rewrite H. Qed.

Lemma pool_inv_step w0 reqs s s' :
  pool_inv w0 reqs s -> pool_step s s' ->
  pool_inv w0 reqs s' /\ steps_left s'.1 < steps_left s.1.
Proof.
  intros (Hm & Hu & Hw & Hr & Hok & es & Htr & Hes) Hstep.
  destruct Hstep as [i g g' pool w w' Hi Hg]. cbn [fst snd] in *.
  destruct (Forall2_lookup_r _ _ _ _ _ Hok Hi) as (r & Hri & Ht & Hid & Hpc).
  pose proof (sum_list_with_insert remaining pool i g g' Hi) as Hrem.
  pose proof (sum_list_with_insert (fun g => if holds_rlock g then 1 else 0)
                pool i g g' Hi) as Hhold.
  pose proof (sum_list_with_lookup (fun g => if holds_rlock g then 1 else 0)
                pool i g Hi) as Hle.
  fold (holders (<[i := g']> pool)) in Hhold. fold (holders pool) in Hhold, Hle.
  fold (steps_left (<[i := g']> pool)) in Hrem. fold (steps_left pool) in Hrem.
  assert (Hok' : goroutine_ok (aggregates w0) r g' ->
                 Forall2 (goroutine_ok (aggregates w0)) reqs (<[i := g']> pool)).
  { intros Hg'. rewrite <- (list_insert_id reqs i r Hri). by apply Forall2_insert. }
  unfold create_step in Hg. unfold pool_inv. cbn [fst snd].
  unfold remaining in Hrem. unfold holds_rlock in Hhold, Hle.
  destruct (g_pc g) as [| |factory|res|res] eqn:Epc.
  - (* RLock *)
    unfold RLock in Hg. rewrite Hw in Hg. injection Hg as <- <-.
    cbn in *. split; [|lia].
    split_and!; try done; [lia|by apply Hok'|].
    exists (es ++ [EvRLock]). rewrite Htr, app_assoc. split; [done|].
    apply Forall_app; split; [done|by repeat constructor].
  - (* the read of the map *)
    unfold map_lookup in Hg. rewrite Hm in Hg.
    destruct (aggregates w0 !! g_type g) as [factory|] eqn:El;
      injection Hg as <- <-; cbn in *.
    + split; [|lia]. split_and!; try done; [lia| |].
      { apply Hok'. repeat split; try done. cbn. by rewrite <- Ht. }
      exists (es ++ [EvMapRead (g_type g)]). rewrite Htr, app_assoc. split; [done|].
      apply Forall_app; split; [done|by repeat constructor].
    + split; [|lia]. split_and!; try done; [lia| |].
      * apply Hok'. repeat split; try done. cbn.
        unfold create_result. by rewrite <- Ht, El.
      * exists (es ++ [EvMapRead (g_type g)]). rewrite Htr, app_assoc. split; [done|].
        apply Forall_app; split; [done|by repeat constructor].
  - (* the call of the factory *)
    unfold call in Hg. injection Hg as <- <-. cbn in *.
    split; [|lia]. split_and!; try done; [lia| |].
    + apply Hok'. repeat split; try done. cbn.
      by rewrite (create_result_found _ _ _ _ Hpc), Hid.
    + exists (es ++ [EvFactory factory (g_id g)]). rewrite Htr, app_assoc.
      split; [done|]. apply Forall_app; split; [done|by repeat constructor].
  - (* RUnlock *)
    unfold RUnlock in Hg.
    destruct (mu_readers (aggregatesMu w)) as [|n] eqn:En; [lia|].
    injection Hg as <- <-. cbn in *.
    split; [|lia]. split_and!; try done; [lia|by apply Hok'|].
    exists (es ++ [EvRUnlock]). rewrite Htr, app_assoc. split; [done|].
    apply Forall_app; split; [done|by repeat constructor].
  - discriminate.
Qed.

Lemma pool_inv_nsteps w0 reqs n s s' :
  pool_inv w0 reqs s -> nsteps pool_step n s s' ->
  pool_inv w0 reqs s' /\ steps_left s'.1 + n <= steps_left s.1.
Proof.
  intros Hinv Hsteps. induction Hsteps as [s|n s1 s2 s3 Hstep _ IH].
  - split; [done|lia].
  - destruct (pool_inv_step _ _ _ _ Hinv Hstep) as [Hinv2 Hlt].
    destruct (IH Hinv2) as [Hinv3 Hle]. split; [done|lia].
Qed.

Lemma pool_inv_progress w0 reqs pool w i g :
  pool_inv w0 reqs (pool, w) -> pool !! i = Some g ->
  has_returned g = false -> is_Some (create_step g w).
Proof.
  intros (Hm & Hu & Hw & Hr & Hok & _) Hi Hnot. cbn [fst snd] in *.
  pose proof (sum_list_with_lookup (fun g => if holds_rlock g then 1 else 0)
                pool i g Hi) as Hle.
  fold (holders pool) in Hle.
  unfold create_step, has_returned, holds_rlock in *.
  destruct (g_pc g) as [| |factory|res|res]; try discriminate.
  - unfold RLock. rewrite Hw. eauto.
  - unfold map_lookup. destruct (aggregates w !! g_type g); eauto.
  - unfold call. eauto.
  - unfold RUnlock. destruct (mu_readers (aggregatesMu w)); [lia|eauto].
Qed.

Lemma mjoin_insert_snoc {A B} (f : A -> list B) (l : list A) i x y e :
  l !! i = Some x -> f y = f x ++ [e] ->
  mjoin (f <$> <[i := y]> l) ≡ₚ mjoin (f <$> l) ++ [e].
Proof.
  intros Hi Hy. revert i Hi. induction l as [|z l IH]; intros [|i] Hi;
    try discriminate; simpl in *.
  - injection Hi as ->. rewrite Hy, <- !app_assoc.
    apply Permutation_app_head, Permutation_app_comm.
  - rewrite <- app_assoc. apply Permutation_app_head. by apply IH.
Qed.

Lemma create_step_own_events (m : gmap AggregateType (Factory UUID)) r g g' w w' :
  goroutine_ok m r g -> aggregates w = m ->
  create_step g w = Some (g', w') ->
  exists e, trace w' = trace w ++ [e] /\ own_events m g' = own_events m g ++ [e].
Proof.
  intros (Ht & Hid & Hpc) Hm Hstep. unfold create_step in Hstep.
  destruct g as [t id pc]. cbn in *. subst m.
  destruct pc as [| |factory|res|res]; cbn in *.
  - unfold RLock in Hstep. destruct (mu_writer (aggregatesMu w)); [done|].
    injection Hstep as <- <-. by exists EvRLock.
  - unfold map_lookup in Hstep. unfold own_events.
    destruct (aggregates w !! t) as [factory|] eqn:El; injection Hstep as <- <-;
      exists (EvMapRead t); cbn; by rewrite ?El.
  - unfold call in Hstep. injection Hstep as <- <-.
    exists (EvFactory factory id). unfold own_events. cbn.
    rewrite Ht in *. by rewrite Hpc.
  - unfold RUnlock in Hstep. destruct (mu_readers (aggregatesMu w)); [done|].
    injection Hstep as <- <-. exists EvRUnlock. unfold own_events. cbn.
    split; [done|]. by destruct (aggregates w !! t).
  - done.
Qed.

Lemma pool_events_nsteps w0 reqs n s s' es :
  pool_inv w0 reqs s -> nsteps pool_step n s s' ->
  trace s.2 = trace w0 ++ es ->
  es ≡ₚ mjoin (own_events (aggregates w0) <$> s.1) ->
  exists es',
    trace s'.2 = trace w0 ++ es' /\
    es' ≡ₚ mjoin (own_events (aggregates w0) <$> s'.1).
Proof.
  intros Hinv Hsteps. revert es. induction Hsteps as [s|n s1 s2 s3 Hstep _ IH];
    intros es Htr Hperm; [by exists es|].
  destruct (pool_inv_step _ _ _ _ Hinv Hstep) as [Hinv2 _].
  destruct Hstep as [i g g' pool w w' Hi Hg]. cbn [fst snd] in *.
  destruct Hinv as (Hm & _ & _ & _ & Hok & _). cbn [fst snd] in *.
  destruct (Forall2_lookup_r _ _ _ _ _ Hok Hi) as (r & _ & Hg_ok).
  destruct (create_step_own_events _ _ _ _ _ _ Hg_ok Hm Hg) as (e & Htr' & Hown).
  apply (IH Hinv2 (es ++ [e])); cbn [fst snd].
  - by rewrite Htr', Htr, app_assoc.
  - rewrite (mjoin_insert_snoc _ _ _ _ _ _ Hi Hown). by apply Permutation_app_tail.
Qed.

Lemma spawn_own_events (m : gmap AggregateType (Factory UUID)) reqs :
  mjoin (own_events m <$> spawn reqs) = [].
Proof. induction reqs as [|r reqs IH]; [reflexivity|]. exact IH. Qed.

Lemma run_schedule_nsteps sched pool w s :
  run_schedule sched pool w = Some s ->
  nsteps pool_step (length sched) (pool, w) s.
Proof.
  revert pool w. induction sched as [|i sched IH]; intros pool w Hrun; cbn in Hrun.
  - injection Hrun as <-. constructor.
  - destruct (pool !! i) as [g|] eqn:Hi; [|discriminate].
    destruct (create_step g w) as [[g' w']|] eqn:Hg; [|discriminate].
    eapply nsteps_l; [by eapply pool_step_at|by apply IH].
Qed.

(** C9. Goroutines that run [CreateAggregate] side by side, for type names
    that are registered, from a world where no writer holds the mutex, under
    any schedule: a goroutine that has not returned always has its next step
    (nobody waits for anybody); a goroutine that has returned has what the
    registered factory built for its identifier and a nil error, which is what
    the call returns when it runs alone; a schedule has at most four steps per
    call, and when no step is left every call has returned; the map stays as it
    was and only events of the read side occur, the write side of the mutex
    never being taken.  [RegisterAggregate] on its part touches the map under
    the write lock only.  The read side is taken: the mutex counts as its
    readers exactly the goroutines between their [RLock] and their [RUnlock],
    the events of the run are those that the goroutines have behind them
    ([RLock], the read of the map, the call of the factory, [RUnlock], each
    as far as the goroutine has come), and a call that runs alone goes
    through exactly these four. *)
Theorem concurrent_CreateAggregate reqs w0 n pool w :
  mu_writer (aggregatesMu w0) = false ->
  Forall (fun r => is_Some (aggregates w0 !! r.1)) reqs ->
  nsteps pool_step n (spawn reqs, w0) (pool, w) ->
  (forall i g, pool !! i = Some g -> has_returned g = false ->
     is_Some (create_step g w)) /\
  (forall i g res, pool !! i = Some g -> g_pc g = Returned res ->
     exists r factory,
       reqs !! i = Some r /\ aggregates w0 !! r.1 = Some factory /\
       res = (factory r.2, None) /\
       (CreateAggregate r.1 r.2 w0).1 = Returns res) /\
  steps_left pool + n <= 4 * length reqs /\
  ((forall s, ~ pool_step (pool, w) s) ->
     Forall (fun g => has_returned g = true) pool) /\
  aggregates w = aggregates w0 /\
  mu_writer (aggregatesMu w) = false /\
  (exists es, trace w = trace w0 ++ es /\ Forall (fun e => read_side e = true) es) /\
  (forall factory w1, exists es,
     trace (RegisterAggregate uuid_source fmt_q factory w1).2 = trace w1 ++ es /\
     register_discipline false es = true) /\
  mu_readers (aggregatesMu w) = mu_readers (aggregatesMu w0) + holders pool /\
  (exists es,
     trace w = trace w0 ++ es /\
     es ≡ₚ mjoin (own_events (aggregates w0) <$> pool)) /\
  (forall i r factory,
     reqs !! i = Some r -> aggregates w0 !! r.1 = Some factory ->
     CreateAggregate r.1 r.2 w0 =
     (Returns (factory r.2, None),
      add_trace [EvRLock; EvMapRead r.1; EvFactory factory r.2; EvRUnlock] w0)).
Proof.
  intros Hw0 Hreg Hsteps.
  destruct (pool_events_nsteps w0 reqs n _ _ [] (pool_inv_start w0 reqs Hw0) Hsteps)
    as (es' & Htr' & Hperm');
    [cbn; by rewrite app_nil_r|cbn [fst snd]; by rewrite spawn_own_events|].
  destruct (pool_inv_nsteps w0 reqs n _ _ (pool_inv_start w0 reqs Hw0) Hsteps)
    as [Hinv Hle].
  cbn [fst snd] in Hle. rewrite spawn_steps_left in Hle.
  pose proof Hinv as (Hm & Hu & Hw & Hr & Hok & Htr). cbn [fst snd] in *.
  split_and!; try done.
  - intros i g Hi Hnot. by eapply pool_inv_progress.
  - intros i g res Hi Hpc.
    destruct (Forall2_lookup_r _ _ _ _ _ Hok Hi) as (r & Hri & Ht & Hid & Hres).
    rewrite Hpc in Hres.
    pose proof (proj1 (Forall_lookup _ _) Hreg i r Hri) as [factory Hf].
    exists r, factory. split_and!; try done.
    + by rewrite Hres, (create_result_found _ _ _ _ Hf).
    + rewrite CreateAggregate_unfold, Hw0, Hf. cbn.
      by rewrite Hres, (create_result_found _ _ _ _ Hf).
  - intros Hstuck. apply Forall_lookup. intros i g Hi.
    destruct (has_returned g) eqn:Hret; [done|].
    destruct (pool_inv_progress _ _ _ _ _ _ Hinv Hi Hret) as [[g' w'] Hg].
    exfalso. eapply Hstuck. by eapply pool_step_at.
  - intros factory w1. apply RegisterAggregate_discipline.
  - by exists es'.
  - intros i r factory _ Hf. by rewrite CreateAggregate_unfold, Hw0, Hf.
Qed.

(** ** What else the two functions do, call by call *)

Lemma run_calls_app calls1 calls2 w :
  run_calls uuid_source fmt_q (calls1 ++ calls2) w =
  run_calls uuid_source fmt_q calls2 (run_calls uuid_source fmt_q calls1 w).
Proof. unfold run_calls. apply foldl_app. Qed.

Lemma RegisterAggregate_uuids factory w :
  uuids_issued (RegisterAggregate uuid_source fmt_q factory w).2 = S (uuids_issued w).
Proof. register_cases factory w; reflexivity. Qed.

Lemma CreateAggregate_uuids aggregateType id w :
  uuids_issued (CreateAggregate aggregateType id w).2 = uuids_issued w.
Proof.
  rewrite CreateAggregate_unfold.
  destruct (mu_writer (aggregatesMu w)); [reflexivity|].
  by destruct (aggregates w !! aggregateType).
Qed.

Lemma validated_mono w w' t factory :
  uuids_issued w <= uuids_issued w' ->
  validated uuid_source w t factory -> validated uuid_source w' t factory.
Proof.
  intros Hle (Hne & n & a & Hn & Ha & Ht). split; [done|].
  exists n, a. split_and!; [lia|done|done].
Qed.

Lemma run_call_validated w c :
  (forall t f, aggregates w !! t = Some f -> validated uuid_source w t f) ->
  forall t f, aggregates (run_call uuid_source fmt_q w c) !! t = Some f ->
    validated uuid_source (run_call uuid_source fmt_q w c) t f.
Proof.
  intros Hw t f. destruct c as [factory|t' id]; cbn [run_call].
  - pose proof (RegisterAggregate_uuids factory w) as Hu. revert Hu.
    register_cases factory w; cbn; intros Hu Hf;
      try (eapply validated_mono; [|by apply Hw]; cbn; lia).
    destruct (decide (t = Aggregate_AggregateType a)) as [->|Hne].
    + rewrite lookup_insert_eq in Hf. injection Hf as <-.
      split; [done|]. exists (uuids_issued w), a. cbn. split_and!; [lia|done|done].
    + rewrite lookup_insert_ne in Hf by done.
      eapply validated_mono; [|by apply Hw]. cbn; lia.
  - rewrite CreateAggregate_aggregates. intros Hf.
    eapply validated_mono; [|by apply Hw]. by rewrite CreateAggregate_uuids.
Qed.

(** X1. Whatever calls were made since process start, every binding of the
    map went through the checks of registration: its type name is not empty,
    and its factory built, for an identifier that [NewUUID] handed out, an
    aggregate that reports this type name. *)
Theorem registry_bindings_validated calls t factory :
  aggregates (run_calls uuid_source fmt_q calls World_init) !! t = Some factory ->
  validated uuid_source (run_calls uuid_source fmt_q calls World_init) t factory.
Proof.
  revert t factory. induction calls as [|c calls IH] using rev_ind; intros t f.
  - cbn. by rewrite lookup_empty.
  - rewrite run_calls_app. apply run_call_validated. exact IH.
Qed.

(** X2. Used by one caller after the other from a world whose mutex is free,
    the registry makes no call wait: each call returns or panics, also after
    calls that panicked, and the mutex is free again after each. *)
Theorem sequential_calls_never_wait calls c w :
  aggregatesMu w = RWMutex_zero ->
  call_outcome uuid_source fmt_q (run_calls uuid_source fmt_q calls w) c <> Blocks /\
  aggregatesMu (run_calls uuid_source fmt_q (calls ++ [c]) w) = RWMutex_zero.
Proof.
  intros Hmu. split; [|by rewrite run_calls_mu].
  assert (Hmu' : aggregatesMu (run_calls uuid_source fmt_q calls w) = RWMutex_zero)
    by (by rewrite run_calls_mu).
  destruct (unlocked_call_returns _ Hmu') as [Hreg Hcreate].
  destruct c as [factory|t id]; cbn [call_outcome]; [apply Hreg|].
  destruct (Hcreate t id) as [res ->]. done.
Qed.

(** X3. Every [RegisterAggregate] draws one identifier from [NewUUID], also
    when it panics, and [CreateAggregate] draws none: after a sequence of calls
    the identifiers handed out are as many more as there were registrations. *)
Theorem identifiers_drawn calls w :
  uuids_issued (run_calls uuid_source fmt_q calls w) =
  uuids_issued w + registrations calls.
Proof.
  revert w. induction calls as [|c calls IH]; intros w; [cbn; lia|].
  rewrite run_calls_cons, IH. unfold registrations.
  destruct c as [factory|t id]; cbn [run_call sum_list_with is_register].
  - rewrite RegisterAggregate_uuids. lia.
  - rewrite CreateAggregate_uuids. lia.
Qed.

(** X4. The effects of [CreateAggregate], in order: nothing while a writer
    holds the mutex; else exactly the read lock, the read of the map at the
    type name, for a registered type name one call of the registered factory
    on [id], made while the read lock is held, and the read unlock.  It draws
    no identifier, writes nothing and leaves the mutex and the map as they
    were. *)
Theorem CreateAggregate_order aggregateType id w :
  let w' := (CreateAggregate aggregateType id w).2 in
  exists es,
    trace w' = trace w ++ es /\
    aggregatesMu w' = aggregatesMu w /\
    uuids_issued w' = uuids_issued w /\
    aggregates w' = aggregates w /\
    (mu_writer (aggregatesMu w) = true /\ es = [] \/
     mu_writer (aggregatesMu w) = false /\
     es =
       match (aggregates w !! aggregateType : option (Factory UUID)) with
       | Some factory =>
           [EvRLock; EvMapRead aggregateType; EvFactory factory id; EvRUnlock]
       | None => [EvRLock; EvMapRead aggregateType; EvRUnlock]
       end /\
     create_discipline false es = true /\
     factory_calls es =
       match (aggregates w !! aggregateType : option (Factory UUID)) with
       | Some factory => [(factory, id)]
       | None => []
       end).
Proof.
  cbn zeta. rewrite CreateAggregate_unfold.
  destruct (mu_writer (aggregatesMu w)) eqn:Hw.
  - exists []. rewrite app_nil_r. split_and!; try done. by left.
  - destruct (aggregates w !! aggregateType) as [factory|];
      (eexists; split_and!; [reflexivity|reflexivity|reflexivity|reflexivity|];
       right; split_and!; reflexivity).
Qed.

Lemma RegisterAggregate_registered_map factory t w :
  builds_type factory t ->
  aggregates (RegisterAggregate uuid_source fmt_q factory w).2 =
  registered_map (aggregatesMu w) (aggregates w) (t, factory).
Proof.
  intros Hb. destruct (Hb (probe_id uuid_source w)) as (a & Ha & Ht).
  rewrite RegisterAggregate_unfold. unfold probe. rewrite Ha. cbn zeta.
  unfold registered_map. cbn [fst snd]. rewrite Ht.
  destruct (decide (t = "")); [reflexivity|].
  destruct (mu_writer (aggregatesMu w)); [reflexivity|].
  destruct (mu_readers (aggregatesMu w)); [|reflexivity].
  by destruct (aggregates w !! t).
Qed.

Lemma run_calls_registered_map (regs : list (AggregateType * Factory UUID)) w :
  Forall (fun r => builds_type r.2 r.1) regs ->
  aggregates (run_calls uuid_source fmt_q ((fun r => CallRegister r.2) <$> regs) w) =
  foldl (registered_map (aggregatesMu w)) (aggregates w) regs.
Proof.
  intros Hall. revert w. induction Hall as [|r regs Hr _ IH]; intros w; [reflexivity|].
  cbn [fmap list_fmap foldl]. rewrite run_calls_cons, IH. cbn [run_call].
  by rewrite RegisterAggregate_mu, (RegisterAggregate_registered_map _ _ _ Hr).
Qed.

Lemma registered_map_swap mu (m : gmap AggregateType (Factory UUID)) r1 r2 :
  r1.1 <> r2.1 ->
  registered_map mu (registered_map mu m r1) r2 =
  registered_map mu (registered_map mu m r2) r1.
Proof.
  intros Hne. unfold registered_map.
  destruct (decide (r1.1 = "")), (decide (r2.1 = "")); try reflexivity.
  destruct (mu_writer mu); [reflexivity|]. destruct (mu_readers mu); [|reflexivity].
  destruct (m !! r1.1) eqn:E1, (m !! r2.1) eqn:E2;
    rewrite ?E1, ?E2, ?lookup_insert_ne, ?E1, ?E2 by done; try reflexivity.
  by apply insert_insert_ne.
Qed.

Lemma registered_map_permutation mu (regs regs' : list (AggregateType * Factory UUID)) :
  regs ≡ₚ regs' -> NoDup regs.*1 ->
  forall m, foldl (registered_map mu) m regs = foldl (registered_map mu) m regs'.
Proof.
  induction 1 as [|r l l' Hperm IH|r1 r2 l|l1 l2 l3 H12 IH12 H23 IH23];
    intros Hnd m.
  - reflexivity.
  - cbn. apply IH. by inversion Hnd.
  - cbn. rewrite registered_map_swap; [reflexivity|].
    cbn in Hnd. apply NoDup_cons in Hnd as [Hnotin _].
    intros Heq. apply Hnotin. rewrite Heq. left.
  - rewrite IH12 by done. apply IH23. by rewrite <- H12.
Qed.

(** X5. The order of registrations does not matter: for factories that
    build one type name each, with names that differ from one another, the
    map after registering them all, in a world whatever it holds already, is
    the same for every order. *)
Theorem registration_order_irrelevant
    (regs regs' : list (AggregateType * Factory UUID)) w :
  regs ≡ₚ regs' ->
  NoDup regs.*1 ->
  Forall (fun r => builds_type r.2 r.1) regs ->
  aggregates (run_calls uuid_source fmt_q ((fun r => CallRegister r.2) <$> regs) w) =
  aggregates (run_calls uuid_source fmt_q ((fun r => CallRegister r.2) <$> regs') w).
Proof.
  intros Hperm Hnd Hall.
  rewrite !run_calls_registered_map; [|by rewrite <- Hperm|done].
  by apply registered_map_permutation.
Qed.

(** ** Registrations and creations side by side *)

Implicit Types (k : Task UUID) (tasks : list (Task UUID)) (calls : list (Call UUID)).

Lemma sum_list_with_lookup2 {A} (f : A -> nat) (l : list A) i j x y :
  i <> j -> l !! i = Some x -> l !! j = Some y -> f x + f y <= sum_list_with f l.
Proof.
  revert i j. induction l as [|z l IH]; intros [|i] [|j] Hne Hi Hj;
    try discriminate; try done; simpl in *.
  - injection Hi as ->. pose proof (sum_list_with_lookup f l j y Hj). lia.
  - injection Hj as ->. pose proof (sum_list_with_lookup f l i x Hi). lia.
  - assert (i <> j) by congruence. specialize (IH i j ltac:(done) Hi Hj). lia.
Qed.

Lemma sum_list_with_pos {A} (f : A -> nat) (l : list A) :
  0 < sum_list_with f l -> exists i x, l !! i = Some x /\ 0 < f x.
Proof.
  induction l as [|z l IH]; simpl; [lia|]. intros Hpos.
  destruct (decide (0 < f z)) as [Hz|Hz]; [by exists 0, z|].
  destruct IH as (i & x & Hi & Hx); [lia|]. by exists (S i), x.
Qed.

Lemma map_writes_snoc t (es : list (Event UUID)) e :
  map_writes t (es ++ [e]) = map_writes t es + map_writes t [e].
Proof. unfold map_writes. by rewrite sum_list_with_app. Qed.

Lemma map_writes_cons t (es : list (Event UUID)) e :
  map_writes t (e :: es) = map_writes t [e] + map_writes t es.
Proof. unfold map_writes. simpl. lia. Qed.

Lemma map_writes_pos t (es : list (Event UUID)) :
  0 < map_writes t es -> exists f, EvMapWrite t f ∈ es.
Proof.
  induction es as [|e es IH]; [unfold map_writes; simpl; lia|].
  rewrite map_writes_cons. intros Hpos.
  destruct (decide (0 < map_writes t es)) as [Hes|Hes].
  - destruct (IH Hes) as [f Hf]. exists f. by right.
  - destruct e as [| | | | | | |t' f]; try (unfold map_writes in Hpos at 1; simpl in Hpos; lia).
    unfold map_writes in Hpos at 1. simpl in Hpos.
    destruct (decide (t' = t)) as [->|]; [|lia]. exists f. left.
Qed.

Lemma trace_ok_emit (w0 w w' : World UUID) e :
  trace_ok w0 w ->
  aggregates w' = aggregates w -> trace w' = trace w ++ [e] ->
  (forall t f, e <> EvMapWrite t f) ->
  trace_ok w0 w'.
Proof.
  intros (es & Htr & Hone & Hin & Hzero) Hagg Htr' He.
  exists (es ++ [e]).
  assert (Hcount : forall t, map_writes t (es ++ [e]) = map_writes t es).
  { intros t. rewrite map_writes_snoc.
    destruct e; try (unfold map_writes at 2; simpl; lia). by edestruct He. }
  split_and!.
  - by rewrite Htr', Htr, app_assoc.
  - intros t. rewrite Hcount. apply Hone.
  - intros t f [Hf|Hf%list_elem_of_singleton]%elem_of_app.
    + rewrite Hagg. by apply Hin.
    + by edestruct He.
  - intros t Ht. rewrite Hcount. by apply Hzero.
Qed.

Lemma result_ok_grow (m0 m m' : gmap AggregateType (Factory UUID)) t id res :
  m ⊆ m' -> result_ok m0 m t id res -> result_ok m0 m' t id res.
Proof.
  intros Hsub [Hnone|(f & Hf & Hres)]; [by left|right].
  exists f. split; [|done]. by eapply lookup_weaken.
Qed.

Lemma outcome_ok_grow (m m' : gmap AggregateType (Factory UUID)) factory r :
  m ⊆ m' -> outcome_ok fmt_q m factory r -> outcome_ok fmt_q m' factory r.
Proof.
  intros Hsub. destruct r as [[]|msg|]; cbn; [| |done].
  - intros (t & Hne & Ht). exists t. split; [done|]. by eapply lookup_weaken.
  - intros [?|[?|(t & Hmsg & [f Hf])]]; [by left|by right; left|].
    right; right. exists t. split; [done|]. exists f. by eapply lookup_weaken.
Qed.

Lemma task_ok_grow (m0 m m' : gmap AggregateType (Factory UUID)) c k :
  m ⊆ m' -> in_write_section k = false ->
  task_ok fmt_q m0 m c k -> task_ok fmt_q m0 m' c k.
Proof.
  intros Hsub Hsec. destruct c as [factory|t id], k as [g|factory' pc]; cbn; try done.
  - intros [-> Hpc]. split; [done|].
    destruct pc; cbn in *; try done. by eapply outcome_ok_grow.
  - intros (Ht & Hid & Hpc). split_and!; [done|done|].
    destruct (g_pc g); try done.
    + by eapply lookup_weaken.
    + by eapply result_ok_grow.
    + by eapply result_ok_grow.
Qed.

Lemma tasks_inv_update w0 calls tasks w i k k' w' e c :
  tasks_inv fmt_q w0 calls (tasks, w) ->
  tasks !! i = Some k -> calls !! i = Some c ->
  aggregates w' = aggregates w ->
  trace w' = trace w ++ [e] -> (forall t f, e <> EvMapWrite t f) ->
  writer_bit (aggregatesMu w') + (if in_write_section k then 1 else 0) =
    writer_bit (aggregatesMu w) + (if in_write_section k' then 1 else 0) ->
  mu_readers (aggregatesMu w') + (if in_read_section k then 1 else 0) =
    mu_readers (aggregatesMu w) + (if in_read_section k' then 1 else 0) ->
  (mu_writer (aggregatesMu w') = true -> mu_readers (aggregatesMu w') = 0) ->
  task_ok fmt_q (aggregates w0) (aggregates w) c k' ->
  tasks_inv fmt_q w0 calls (<[i := k']> tasks, w').
Proof.
  intros [Hw Hr Hx Hkept Htasks Htrace] Hi Hc Hagg Htr He Hw' Hr' Hx' Hok.
  cbn [fst snd] in *.
  pose proof (sum_list_with_insert (fun k => if in_write_section k then 1 else 0)
                tasks i k k' Hi) as Hws.
  pose proof (sum_list_with_insert (fun k => if in_read_section k then 1 else 0)
                tasks i k k' Hi) as Hrs.
  fold (writers_in (<[i := k']> tasks)) in Hws. fold (writers_in tasks) in Hws.
  fold (readers_in (<[i := k']> tasks)) in Hrs. fold (readers_in tasks) in Hrs.
  split; cbn [fst snd].
  - lia.
  - lia.
  - done.
  - by rewrite Hagg.
  - intros j kj Hj. rewrite Hagg.
    destruct (decide (j = i)) as [->|Hne].
    + rewrite list_lookup_insert_eq in Hj by (by eapply lookup_lt_Some).
      injection Hj as <-. by exists c.
    + rewrite list_lookup_insert_ne in Hj by done. by apply Htasks.
  - by eapply trace_ok_emit.
Qed.

Lemma tasks_inv_store w0 calls tasks w i factory t :
  tasks_inv fmt_q w0 calls (tasks, w) ->
  tasks !! i = Some (Registering factory (RAtStore t)) ->
  tasks_inv fmt_q w0 calls
    (<[i := Registering factory (RAtUnlock (Returns tt))]> tasks,
     emit (EvMapWrite t factory)
       (set_aggregates (<[t := factory]> (aggregates w)) w)).
Proof.
  intros [Hw Hr Hx Hkept Htasks Htrace] Hi. cbn [fst snd] in *.
  destruct (Htasks i _ Hi) as (c & Hc & Hok).
  destruct c as [factory0|]; [|done]. destruct Hok as (-> & Hne & Hnone).
  set (k' := Registering factory0 (RAtUnlock (Returns tt))).
  pose proof (sum_list_with_insert (fun k => if in_write_section k then 1 else 0)
                tasks i _ k' Hi) as Hws.
  pose proof (sum_list_with_insert (fun k => if in_read_section k then 1 else 0)
                tasks i _ k' Hi) as Hrs.
  fold (writers_in (<[i := k']> tasks)) in Hws. fold (writers_in tasks) in Hws.
  fold (readers_in (<[i := k']> tasks)) in Hrs. fold (readers_in tasks) in Hrs.
  cbn in Hws, Hrs.
  assert (Hsub : aggregates w ⊆ <[t := factory0]> (aggregates w))
    by (by apply insert_subseteq).
  split; cbn [fst snd]; cbn.
  - lia.
  - lia.
  - done.
  - by etrans.
  - intros j kj Hj. destruct (decide (j = i)) as [->|Hji].
    + rewrite list_lookup_insert_eq in Hj by (by eapply lookup_lt_Some).
      injection Hj as <-. exists (CallRegister factory0). split; [done|].
      split; [done|]. exists t. split; [done|]. apply lookup_insert_eq.
    + rewrite list_lookup_insert_ne in Hj by done.
      destruct (Htasks j kj Hj) as (c & Hc' & Hok). exists c. split; [done|].
      eapply task_ok_grow; [done| |done].
      pose proof (sum_list_with_lookup2
                    (fun k => if in_write_section k then 1 else 0)
                    tasks i j _ kj ltac:(done) Hi Hj) as Hle.
      fold (writers_in tasks) in Hle. cbn in Hle.
      unfold writer_bit in Hw. destruct (in_write_section kj); [|done].
      destruct (mu_writer (aggregatesMu w)); lia.
  - destruct Htrace as (es & Htr & Hone & Hin & Hzero).
    assert (Hfresh : map_writes t es = 0).
    { destruct (decide (0 < map_writes t es)) as [Hpos|]; [|lia].
      destruct (map_writes_pos _ _ Hpos) as [f Hf].
      apply Hin in Hf. congruence. }
    exists (es ++ [EvMapWrite t factory0]). split_and!.
    + cbn. by rewrite Htr, app_assoc.
    + intros t'. rewrite map_writes_snoc. unfold map_writes at 2. cbn.
      destruct (decide (t = t')) as [<-|]; [lia|]. specialize (Hone t'). lia.
    + intros t' f [Hf|Hf%list_elem_of_singleton]%elem_of_app.
      * specialize (Hin _ _ Hf). cbn.
        rewrite lookup_insert_ne; [done|]. congruence.
      * injection Hf as -> ->. apply lookup_insert_eq.
    + intros t' [f Hf]. rewrite map_writes_snoc. unfold map_writes at 2. cbn.
      destruct (decide (t = t')) as [<-|].
      * pose proof (lookup_weaken _ _ _ _ Hf Hkept). congruence.
      * rewrite Hzero by eauto. lia.
Qed.

Lemma task_step_left k w k' w' :
  task_step uuid_source fmt_q k w = Some (k', w') ->
  task_steps_left k' < task_steps_left k.
Proof.
  destruct k as [[t id pc]|factory pc]; cbn.
  - unfold create_step, RLock, map_lookup, call, RUnlock; cbn.
    destruct pc; cbn; repeat case_match; intros; simplify_eq; cbn; lia.
  - unfold register_step, NewUUID, call, Lock, map_lookup, map_store, Unlock.
    destruct pc; cbn; repeat case_match; intros; simplify_eq; cbn; lia.
Qed.

Lemma tasks_inv_step w0 calls s s' :
  tasks_inv fmt_q w0 calls s -> tasks_step uuid_source fmt_q s s' ->
  tasks_inv fmt_q w0 calls s' /\ aggregates s.2 ⊆ aggregates s'.2.
Proof.
  intros Hinv Hstep. destruct Hstep as [i k k' tasks w w' Hi Hk].
  cbn [fst snd].
  destruct (inv_tasks _ _ _ _ Hinv i k Hi) as (c & Hc & Hok). cbn [fst snd] in *.
  pose proof (inv_writer _ _ _ _ Hinv) as Hw.
  pose proof (inv_readers _ _ _ _ Hinv) as Hr.
  pose proof (inv_exclusive _ _ _ _ Hinv) as Hx.
  pose proof (sum_list_with_lookup (fun k => if in_write_section k then 1 else 0)
                tasks i k Hi) as Hwle.
  pose proof (sum_list_with_lookup (fun k => if in_read_section k then 1 else 0)
                tasks i k Hi) as Hrle.
  fold (writers_in tasks) in Hwle. fold (readers_in tasks) in Hrle.
  cbn [fst snd] in *. unfold writer_bit in *.
  destruct k as [[t id pc]|factory pc], c as [factory0|t0 id0]; try done.
  - (* a creation *)
    destruct Hok as (Ht & Hid & Hpc). cbn in Ht, Hid, Hpc. subst t0 id0.
    unfold task_step, create_step in Hk. cbn in Hk, Hwle, Hrle.
    destruct pc as [| |factory|res|res]; cbn in Hk.
    + unfold RLock in Hk.
      destruct (mu_writer (aggregatesMu w)) eqn:Emw; [done|].
      injection Hk as <- <-. split; [|done].
      eapply (tasks_inv_update _ _ _ _ _ _ _ _ EvRLock); eauto; cbn;
        unfold writer_bit; rewrite ?Emw; cbn; try done; lia.
    + unfold map_lookup in Hk.
      destruct (aggregates w !! t) as [factory|] eqn:El; injection Hk as <- <-;
        (split; [|done]);
        eapply (tasks_inv_update _ _ _ _ _ _ _ _ (EvMapRead t)); eauto; cbn;
        try done; try lia.
      split_and!; try done. left. split; [done|].
      apply eq_None_not_Some. intros [f Hf].
      pose proof (lookup_weaken _ _ _ _ Hf (inv_kept _ _ _ _ Hinv)). cbn in *.
      congruence.
    + unfold call in Hk. injection Hk as <- <-. split; [|done].
      eapply (tasks_inv_update _ _ _ _ _ _ _ _ (EvFactory factory id)); eauto; cbn;
        try done; try lia.
      split_and!; try done. right. by exists factory.
    + unfold RUnlock in Hk.
      destruct (mu_readers (aggregatesMu w)) as [|n] eqn:Emr; [done|].
      injection Hk as <- <-. split; [|done].
      eapply (tasks_inv_update _ _ _ _ _ _ _ _ EvRUnlock); eauto; cbn;
        unfold writer_bit; try done; try lia.
      intros Hwt. specialize (Hx Hwt). lia.
    + done.
  - (* a registration *)
    destruct Hok as (-> & Hpc).
    unfold task_step, register_step in Hk. cbn in Hwle, Hrle.
    destruct pc as [|u|t|t|t|r|r]; cbn in Hk.
    + unfold NewUUID in Hk. injection Hk as <- <-. split; [|done].
      eapply (tasks_inv_update _ _ _ _ _ _ _ _
                (EvNewUUID (uuid_source (uuids_issued w)))); eauto; cbn; done.
    + unfold call in Hk. cbn in Hk.
      destruct (factory0 u) as [a|] eqn:Ea.
      * destruct (decide (Aggregate_AggregateType a = "")) as [He|He];
          injection Hk as <- <-; (split; [|done]);
          eapply (tasks_inv_update _ _ _ _ _ _ _ _ (EvFactory factory0 u)); eauto; cbn;
          try done. split; [done|]. by right; left.
      * injection Hk as <- <-. split; [|done].
        eapply (tasks_inv_update _ _ _ _ _ _ _ _ (EvFactory factory0 u)); eauto; cbn;
          try done. split; [done|]. by left.
    + unfold Lock in Hk.
      destruct (mu_writer (aggregatesMu w)) eqn:Emw; [done|].
      destruct (mu_readers (aggregatesMu w)) eqn:Emr; [|done].
      injection Hk as <- <-. split; [|done].
      eapply (tasks_inv_update _ _ _ _ _ _ _ _ EvLock); eauto; cbn;
        unfold writer_bit; rewrite ?Emw, ?Emr; cbn; try done; lia.
    + unfold map_lookup in Hk.
      destruct (aggregates w !! t) as [f|] eqn:El; injection Hk as <- <-;
        (split; [|done]);
        eapply (tasks_inv_update _ _ _ _ _ _ _ _ (EvMapRead t)); eauto; cbn;
        try done.
      split; [done|]. right; right. exists t. eauto.
    + unfold map_store in Hk. injection Hk as <- <-. destruct Hpc as [Hne Hnone].
      split; [by apply tasks_inv_store|]. cbn. by apply insert_subseteq.
    + unfold Unlock in Hk.
      destruct (mu_writer (aggregatesMu w)) eqn:Emw; [|done].
      injection Hk as <- <-. split; [|done].
      eapply (tasks_inv_update _ _ _ _ _ _ _ _ EvUnlock); eauto; cbn;
        unfold writer_bit; rewrite ?Emw; cbn; try done; lia.
    + done.
Qed.

Lemma tasks_step_left s s' :
  tasks_step uuid_source fmt_q s s' -> tasks_left s'.1 < tasks_left s.1.
Proof.
  intros [i k k' tasks w w' Hi Hk]. cbn [fst snd].
  pose proof (sum_list_with_insert task_steps_left tasks i k k' Hi) as Hsum.
  fold (tasks_left (<[i := k']> tasks)) in Hsum. fold (tasks_left tasks) in Hsum.
  pose proof (task_step_left _ _ _ _ Hk). lia.
Qed.

Lemma tasks_inv_nsteps w0 calls n s s' :
  tasks_inv fmt_q w0 calls s -> nsteps (tasks_step uuid_source fmt_q) n s s' ->
  tasks_inv fmt_q w0 calls s' /\ aggregates s.2 ⊆ aggregates s'.2 /\
  tasks_left s'.1 + n <= tasks_left s.1.
Proof.
  intros Hinv Hsteps. induction Hsteps as [s|n s1 s2 s3 Hstep _ IH].
  - split_and!; [done|done|lia].
  - destruct (tasks_inv_step _ _ _ _ Hinv Hstep) as [Hinv2 Hsub2].
    pose proof (tasks_step_left _ _ Hstep).
    destruct (IH Hinv2) as (Hinv3 & Hsub3 & Hle).
    split_and!; [done|by etrans|lia].
Qed.

Lemma start_tasks_counts calls :
  writers_in (start_task <$> calls) = 0 /\ readers_in (start_task <$> calls) = 0 /\
  tasks_left (start_task <$> calls) <= 6 * length calls.
Proof.
  induction calls as [|c calls (IHw & IHr & IHl)]; [by cbn|].
  unfold writers_in, readers_in, tasks_left in *.
  destruct c; cbn in *; lia.
Qed.

Lemma tasks_inv_start w0 calls :
  aggregatesMu w0 = RWMutex_zero ->
  tasks_inv fmt_q w0 calls (start_task <$> calls, w0).
Proof.
  intros Hmu. destruct (start_tasks_counts calls) as (Hw & Hr & _).
  split; cbn [fst snd]; rewrite ?Hmu, ?Hw, ?Hr.
  - done.
  - done.
  - done.
  - done.
  - intros i k Hi. rewrite list_lookup_fmap in Hi.
    destruct (calls !! i) as [c|]; [|done]. injection Hi as <-.
    exists c. split; [done|]. by destruct c.
  - exists []. rewrite app_nil_r. split_and!.
    + done.
    + intros t. unfold map_writes. cbn. lia.
    + intros t f Hf. by apply elem_of_nil in Hf.
    + done.
Qed.

Lemma holder_steps w0 calls tasks w i k :
  tasks_inv fmt_q w0 calls (tasks, w) -> tasks !! i = Some k ->
  in_write_section k = true \/ in_read_section k = true ->
  is_Some (task_step uuid_source fmt_q k w).
Proof.
  intros Hinv Hi Hsec.
  pose proof (inv_writer _ _ _ _ Hinv) as Hw.
  pose proof (inv_readers _ _ _ _ Hinv) as Hr.
  pose proof (sum_list_with_lookup (fun k => if in_write_section k then 1 else 0)
                tasks i k Hi) as Hwle.
  pose proof (sum_list_with_lookup (fun k => if in_read_section k then 1 else 0)
                tasks i k Hi) as Hrle.
  fold (writers_in tasks) in Hwle. fold (readers_in tasks) in Hrle.
  cbn [fst snd] in *. unfold writer_bit in *.
  destruct k as [[t id pc]|factory pc]; cbn in *.
  - unfold create_step, map_lookup, call, RUnlock; cbn.
    destruct pc; cbn in *; try (destruct Hsec; done); try by eauto.
    + destruct (aggregates w !! t); eauto.
    + destruct (mu_readers (aggregatesMu w)); [lia|eauto].
  - unfold register_step, map_lookup, map_store, Unlock.
    destruct pc; cbn in *; try (destruct Hsec; done); try by eauto.
    + destruct (aggregates w !! t); eauto.
    + destruct (mu_writer (aggregatesMu w)); [eauto|lia].
Qed.

Lemma waiting_task w0 calls tasks w i k :
  tasks_inv fmt_q w0 calls (tasks, w) -> tasks !! i = Some k ->
  task_done k = false -> task_step uuid_source fmt_q k w = None ->
  0 < writers_in tasks + readers_in tasks.
Proof.
  intros Hinv Hi Hdone Hnone.
  pose proof (inv_writer _ _ _ _ Hinv) as Hw.
  pose proof (inv_readers _ _ _ _ Hinv) as Hr.
  destruct (decide (in_write_section k = true \/ in_read_section k = true))
    as [Hsec|Hsec].
  { destruct (holder_steps _ _ _ _ _ _ Hinv Hi Hsec) as [? Hs]. congruence. }
  cbn [fst snd] in *. unfold writer_bit in *.
  destruct k as [[t id pc]|factory pc]; cbn in *.
  - unfold create_step, RLock in Hnone; cbn in Hnone.
    destruct pc; cbn in *; try done; try (exfalso; apply Hsec; by right).
    destruct (mu_writer (aggregatesMu w)); [lia|done].
  - unfold register_step, NewUUID, call, Lock in Hnone.
    destruct pc; cbn in *; try done; try (exfalso; apply Hsec; by left).
    + repeat case_match; done.
    + destruct (mu_writer (aggregatesMu w)); [lia|].
      destruct (mu_readers (aggregatesMu w)); [done|lia].
Qed.

Lemma tasks_inv_progress w0 calls tasks w :
  tasks_inv fmt_q w0 calls (tasks, w) ->
  Forall (fun k => task_done k = true) tasks \/
  exists i k s',
    tasks !! i = Some k /\ task_step uuid_source fmt_q k w = Some s' /\
    (at_RLock k = true -> Forall (fun k => at_Lock k = false) tasks).
Proof.
  intros Hinv.
  destruct (decide (0 < sum_list_with
                       (fun k => (if in_write_section k then 1 else 0) +
                                 (if in_read_section k then 1 else 0)) tasks))
    as [Hsum|Hfree].
  { (* somebody holds the mutex, and goes on *)
    right. apply sum_list_with_pos in Hsum as (j & kj & Hj & Hsec).
    assert (Hkj : in_write_section kj = true \/ in_read_section kj = true).
    { destruct (in_write_section kj), (in_read_section kj); auto. simpl in Hsec. lia. }
    destruct (holder_steps _ _ _ _ j kj Hinv Hj Hkj) as [s' Hs].
    exists j, kj, s'. split_and!; [done|done|].
    intros Hat. exfalso. destruct kj as [[t id pc]|]; [|done].
    destruct pc; cbn in *; try done. by destruct Hkj. }
  assert (Hnone : writers_in tasks + readers_in tasks = 0).
  { clear -Hfree. unfold writers_in, readers_in.
    induction tasks as [|z l IH]; simpl in *; [lia|].
    destruct (in_write_section z), (in_read_section z); simpl in *; lia. }
  destruct (decide (Forall (fun k => at_Lock k = false) tasks)) as [Hnolock|Hlock].
  - (* nobody holds the mutex or is at Lock *)
    destruct (decide (Forall (fun k => task_done k = true) tasks)) as [|Hnot];
      [by left|right].
    apply not_Forall_Exists in Hnot; [|apply _].
    apply Exists_exists in Hnot as (k & Hk & Hdone).
    apply list_elem_of_lookup in Hk as [i Hi].
    apply not_true_is_false in Hdone.
    destruct (task_step uuid_source fmt_q k w) as [s'|] eqn:Hstep.
    { exists i, k, s'. done. }
    pose proof (waiting_task _ _ _ _ _ _ Hinv Hi Hdone Hstep). lia.
  - (* the mutex is free and a registration is at Lock *)
    right. apply not_Forall_Exists in Hlock; [|apply _].
    apply Exists_exists in Hlock as (k & Hk & Hat).
    apply list_elem_of_lookup in Hk as [i Hi].
    apply not_false_is_true in Hat.
    destruct k as [|factory pc]; [done|]. destruct pc; try done.
    pose proof (inv_writer _ _ _ _ Hinv) as Hw.
    pose proof (inv_readers _ _ _ _ Hinv) as Hr.
    cbn [fst snd] in *. unfold writer_bit in *.
    eexists i, _, _. split_and!; [done| |done].
    cbn. unfold Lock.
    destruct (mu_writer (aggregatesMu w)); [lia|].
    destruct (mu_readers (aggregatesMu w)); [reflexivity|lia].
Qed.

Lemma run_tasks_nsteps sched tasks w s :
  run_tasks uuid_source fmt_q sched tasks w = Some s ->
  nsteps (tasks_step uuid_source fmt_q) (length sched) (tasks, w) s.
Proof.
  revert tasks w. induction sched as [|i sched IH]; intros tasks w Hrun; cbn in Hrun.
  - injection Hrun as <-. constructor.
  - destruct (tasks !! i) as [k|] eqn:Hi; [|discriminate].
    destruct (task_step uuid_source fmt_q k w) as [[k' w']|] eqn:Hk; [|discriminate].
    eapply nsteps_l; [by eapply tasks_step_at|by apply IH].
Qed.

Lemma run_register_RegisterAggregate factory w :
  aggregatesMu w = RWMutex_zero ->
  run_register uuid_source fmt_q 6 factory RAtNewUUID w =
  (RDone (RegisterAggregate uuid_source fmt_q factory w).1,
   (RegisterAggregate uuid_source fmt_q factory w).2).
Proof.
  intros Hmu. rewrite RegisterAggregate_unfold. unfold probe, probe_id.
  destruct w as [m mu n tr]. cbn in Hmu. subst mu. cbn.
  destruct (factory (uuid_source n)) as [a|] eqn:Ea; cbn; rewrite ?Ea; cbn.
  - destruct (decide (Aggregate_AggregateType a = "")); cbn.
    + unfold emit, after_probe; cbn. by rewrite <- !app_assoc.
    + unfold map_lookup; cbn.
      destruct (m !! Aggregate_AggregateType a) eqn:El; cbn;
        unfold emit, after_probe, add_trace, set_aggregates, set_mu; cbn;
        by rewrite <- !app_assoc.
  - unfold emit, after_probe; cbn. by rewrite <- !app_assoc.
Qed.

(** X6. Under every schedule of registrations and creations that started
    with the mutex free, a goroutine between [Lock] and [Unlock] is alone: no
    other goroutine is between [Lock] and [Unlock] or between [RLock] and
    [RUnlock] at that time. *)
Theorem registry_mutual_exclusion calls w0 n tasks w i j ki kj :
  aggregatesMu w0 = RWMutex_zero ->
  nsteps (tasks_step uuid_source fmt_q) n (start_task <$> calls, w0) (tasks, w) ->
  i <> j -> tasks !! i = Some ki -> tasks !! j = Some kj ->
  in_write_section ki = true ->
  in_write_section kj = false /\ in_read_section kj = false.
Proof.
  intros Hmu Hsteps Hne Hi Hj Hki.
  destruct (tasks_inv_nsteps w0 calls n _ _ (tasks_inv_start w0 calls Hmu) Hsteps)
    as (Hinv & _ & _).
  pose proof (inv_writer _ _ _ _ Hinv) as Hw.
  pose proof (inv_readers _ _ _ _ Hinv) as Hr.
  pose proof (inv_exclusive _ _ _ _ Hinv) as Hx.
  pose proof (sum_list_with_lookup2 (fun k => if in_write_section k then 1 else 0)
                tasks i j ki kj Hne Hi Hj) as Hle.
  pose proof (sum_list_with_lookup (fun k => if in_read_section k then 1 else 0)
                tasks j kj Hj) as Hrle.
  fold (writers_in tasks) in Hle. fold (readers_in tasks) in Hrle.
  cbn [fst snd] in *. unfold writer_bit in *. rewrite Hki in Hle.
  destruct (mu_writer (aggregatesMu w)); [|lia].
  specialize (Hx eq_refl).
  destruct (in_write_section kj), (in_read_section kj); try done; lia.
Qed.

(** X7. Under every schedule of registrations and creations, a binding of
    the map, once made, stays for the rest of the run, with the same factory. *)
Theorem concurrent_bindings_kept calls w0 n1 s1 n2 s2 t factory :
  aggregatesMu w0 = RWMutex_zero ->
  nsteps (tasks_step uuid_source fmt_q) n1 (start_task <$> calls, w0) s1 ->
  nsteps (tasks_step uuid_source fmt_q) n2 s1 s2 ->
  aggregates s1.2 !! t = Some factory ->
  aggregates s2.2 !! t = Some factory.
Proof.
  intros Hmu Hsteps1 Hsteps2 Hf.
  destruct (tasks_inv_nsteps w0 calls n1 _ _ (tasks_inv_start w0 calls Hmu) Hsteps1)
    as (Hinv1 & _ & _).
  destruct (tasks_inv_nsteps w0 calls n2 _ _ Hinv1 Hsteps2) as (_ & Hsub & _).
  by eapply lookup_weaken.
Qed.

(** X8. Registrations and creations that start with the mutex free never
    end up all waiting: under every schedule, as long as a goroutine has not
    finished, some goroutine has a step, and one that is not an [RLock] taken
    while a registration is at [Lock], so that the step is there also for a
    mutex that makes new readers wait for a writer that waits.  A schedule
    has at most six steps per call. *)
Theorem registry_never_deadlocks calls w0 n tasks w :
  aggregatesMu w0 = RWMutex_zero ->
  nsteps (tasks_step uuid_source fmt_q) n (start_task <$> calls, w0) (tasks, w) ->
  n + tasks_left tasks <= 6 * length calls /\
  (Forall (fun k => task_done k = true) tasks \/
   exists i k s',
     tasks !! i = Some k /\ task_step uuid_source fmt_q k w = Some s' /\
     (at_RLock k = true -> Forall (fun k => at_Lock k = false) tasks)).
Proof.
  intros Hmu Hsteps.
  destruct (tasks_inv_nsteps w0 calls n _ _ (tasks_inv_start w0 calls Hmu) Hsteps)
    as (Hinv & _ & Hle).
  destruct (start_tasks_counts calls) as (_ & _ & Hstart). cbn [fst snd] in Hle.
  split; [lia|]. by eapply tasks_inv_progress.
Qed.

(** X9. What a creation returns while registrations run beside it: either
    the "not registered" error with a nil instance, and then the type name was
    not bound when the run started, or a nil error with what the factory
    that the map binds to the type name built for the identifier.  For a type
    name bound at the start, it is the factory bound at the start. *)
Theorem concurrent_create_result calls w0 n tasks w i g res :
  aggregatesMu w0 = RWMutex_zero ->
  nsteps (tasks_step uuid_source fmt_q) n (start_task <$> calls, w0) (tasks, w) ->
  tasks !! i = Some (Creating g) -> g_pc g = Returned res ->
  calls !! i = Some (CallCreate (g_type g) (g_id g)) /\
  result_ok (aggregates w0) (aggregates w) (g_type g) (g_id g) res /\
  (forall factory, aggregates w0 !! g_type g = Some factory ->
     res = (factory (g_id g), None)).
Proof.
  intros Hmu Hsteps Hi Hpc.
  destruct (tasks_inv_nsteps w0 calls n _ _ (tasks_inv_start w0 calls Hmu) Hsteps)
    as (Hinv & _ & _).
  destruct (inv_tasks _ _ _ _ Hinv i _ Hi) as (c & Hc & Hok). cbn [fst snd] in *.
  destruct c as [|t id]; [done|]. destruct Hok as (<- & <- & Hres).
  rewrite Hpc in Hres. split_and!; [done|done|].
  intros factory Hf. destruct Hres as [[_ Hnone]|(f & Hf' & ->)]; [congruence|].
  pose proof (lookup_weaken _ _ _ _ Hf (inv_kept _ _ _ _ Hinv)) as Hf''.
  cbn in Hf''. congruence.
Qed.

(** X10. For factories as they are taken here (function values that are not
    nil and that return, with an [AggregateType()] that returns), how a
    registration ends while other calls run beside it: when it returns, the
    map binds a non-empty type name to its factory; when it ends in one of
    the panics that [RegisterAggregate] raises itself, the message is the one
    of line 81, the one of line 85, or the one of line 91 for a type name
    that the map binds.  A panic that comes out of the factory is not covered. *)
Theorem concurrent_register_outcome calls w0 n tasks w i factory r :
  aggregatesMu w0 = RWMutex_zero ->
  nsteps (tasks_step uuid_source fmt_q) n (start_task <$> calls, w0) (tasks, w) ->
  tasks !! i = Some (Registering factory (RDone r)) ->
  calls !! i = Some (CallRegister factory) /\
  outcome_ok fmt_q (aggregates w) factory r.
Proof.
  intros Hmu Hsteps Hi.
  destruct (tasks_inv_nsteps w0 calls n _ _ (tasks_inv_start w0 calls Hmu) Hsteps)
    as (Hinv & _ & _).
  destruct (inv_tasks _ _ _ _ Hinv i _ Hi) as (c & Hc & Hok). cbn [fst snd] in *.
  destruct c as [factory0|]; [|done]. by destruct Hok as (-> & Hr).
Qed.

(** X11. Under every schedule of registrations and creations, each type name
    is written to the map at most once, a name bound when the run started is
    not written at all, and the factory of a write is the one the map binds
    afterwards: no registration replaces a binding, also when several reach
    line 88 for the same name at once. *)
Theorem each_name_written_once calls w0 n tasks w :
  aggregatesMu w0 = RWMutex_zero ->
  nsteps (tasks_step uuid_source fmt_q) n (start_task <$> calls, w0) (tasks, w) ->
  exists es,
    trace w = trace w0 ++ es /\
    (forall t, map_writes t es <= 1) /\
    (forall t f, EvMapWrite t f ∈ es -> aggregates w !! t = Some f) /\
    (forall t, is_Some (aggregates w0 !! t) -> map_writes t es = 0).
Proof.
  intros Hmu Hsteps.
  destruct (tasks_inv_nsteps w0 calls n _ _ (tasks_inv_start w0 calls Hmu) Hsteps)
    as (Hinv & _ & _).
  exact (inv_trace _ _ _ _ Hinv).
Qed.

(** X12. [CreateAggregate] calls the factory between [RLock] and [RUnlock]:
    as long as a creation is there, also while its factory runs, a
    registration that has reached [Lock] has no step; and as long as a
    registration is between [Lock] and [Unlock], neither a creation at [RLock]
    nor another registration at [Lock] has one. *)
Theorem holders_make_others_wait calls w0 n tasks w i j ki kj :
  aggregatesMu w0 = RWMutex_zero ->
  nsteps (tasks_step uuid_source fmt_q) n (start_task <$> calls, w0) (tasks, w) ->
  tasks !! i = Some ki -> tasks !! j = Some kj ->
  (in_read_section ki = true ->
   forall factory t, kj = Registering factory (RAtLock t) ->
     task_step uuid_source fmt_q kj w = None) /\
  (in_write_section ki = true ->
   (forall factory t, kj = Registering factory (RAtLock t) ->
      task_step uuid_source fmt_q kj w = None) /\
   (forall t id, kj = Creating (mkGoroutine t id AtRLock) ->
      task_step uuid_source fmt_q kj w = None)).
Proof.
  intros Hmu Hsteps Hi Hj.
  destruct (tasks_inv_nsteps w0 calls n _ _ (tasks_inv_start w0 calls Hmu) Hsteps)
    as (Hinv & _ & _).
  pose proof (inv_writer _ _ _ _ Hinv) as Hw.
  pose proof (inv_readers _ _ _ _ Hinv) as Hr.
  pose proof (sum_list_with_lookup (fun k => if in_write_section k then 1 else 0)
                tasks i ki Hi) as Hwle.
  pose proof (sum_list_with_lookup (fun k => if in_read_section k then 1 else 0)
                tasks i ki Hi) as Hrle.
  fold (writers_in tasks) in Hwle. fold (readers_in tasks) in Hrle.
  cbn [fst snd] in *. unfold writer_bit in *.
  split.
  - intros Hki factory t ->. rewrite Hki in Hrle. cbn. unfold Lock.
    destruct (mu_writer (aggregatesMu w)); [done|].
    destruct (mu_readers (aggregatesMu w)); [lia|done].
  - intros Hki. rewrite Hki in Hwle.
    destruct (mu_writer (aggregatesMu w)) eqn:Emw; [|lia].
    split.
    + intros factory t ->. cbn. unfold Lock. by rewrite Emw.
    + intros t id ->. cbn. unfold create_step, RLock. cbn. by rewrite Emw.
Qed.

End RegistryFacts.

(** ** The statements at work on concrete runs *)

Lemma CreateAggregate_registered_witness :
  Demo.register Demo.order World_init = (Returns tt, Demo.w_order) /\
  (CreateAggregate "Order" 42
     (run_calls Demo.uuids ascii_q
        [CallCreate "Order" 7; CallRegister Demo.invoice;
         CallRegister Demo.order_v7]
        Demo.w_order)).1
  = Returns (Some (mkAggregate "Order" 42 0), None).
Proof.
  assert (Hreg : Demo.register Demo.order World_init
                 = (Returns tt, Demo.w_order)) by (vm_compute; reflexivity).
  split; [exact Hreg|].
  destruct (CreateAggregate_registered Demo.uuids ascii_q World_init
              Demo.order Demo.w_order
              [CallCreate "Order" 7; CallRegister Demo.invoice;
               CallRegister Demo.order_v7] 42 Hreg)
    as (a & Hprobe & Hres & _).
  injection Hprobe as <-. exact Hres.
Defined.

Lemma CreateAggregate_not_registered_witness :
  aggregates Demo.w_order !! "Invoice" = None /\
  mu_writer (aggregatesMu Demo.w_order) = false /\
  CreateAggregate "Invoice" 7 Demo.w_order =
  (Returns (None, Some ErrAggregateNotRegistered),
   add_trace [EvRLock; EvMapRead "Invoice"; EvRUnlock] Demo.w_order).
Proof.
  assert (Hnone : aggregates Demo.w_order !! "Invoice" = None)
    by (vm_compute; reflexivity).
  assert (Hmu : mu_writer (aggregatesMu Demo.w_order) = false)
    by (vm_compute; reflexivity).
  split_and!; [exact Hnone|exact Hmu|].
  exact (proj2 (CreateAggregate_not_registered Demo.w_order "Invoice" 7 Hnone) Hmu).
Defined.

Lemma RegisterAggregate_duplicate_witness :
  (Demo.register Demo.order Demo.w_order).1
    = Panics (msg_duplicate ascii_q "Order") /\
  (Demo.register Demo.order_v7 Demo.w_order).1
    = Panics (msg_duplicate ascii_q "Order").
Proof.
  assert (Hmu : aggregatesMu Demo.w_order = RWMutex_zero)
    by (vm_compute; reflexivity).
  assert (Hreg : aggregates Demo.w_order !! "Order" = Some Demo.order)
    by (vm_compute; reflexivity).
  split.
  - destruct (RegisterAggregate_duplicate Demo.uuids ascii_q Demo.w_order
                Demo.order (mkAggregate "Order" 1001 0) Demo.order
                Hmu eq_refl Hreg) as (msg & Hpanic & Hmsg).
    rewrite (Hmsg ltac:(discriminate)) in Hpanic. exact Hpanic.
  - destruct (RegisterAggregate_duplicate Demo.uuids ascii_q Demo.w_order
                Demo.order_v7 (mkAggregate "Order" 1001 7) Demo.order
                Hmu eq_refl Hreg) as (msg & Hpanic & Hmsg).
    rewrite (Hmsg ltac:(discriminate)) in Hpanic. exact Hpanic.
Defined.

Lemma RegisterAggregate_invalid_probe_witness :
  (Demo.register Demo.nil_factory World_init).1 = Panics msg_nil /\
  (Demo.register Demo.unnamed World_init).1 = Panics msg_empty.
Proof.
  split.
  - apply (RegisterAggregate_invalid_probe Demo.uuids ascii_q World_init
             Demo.nil_factory).
    left. reflexivity.
  - apply (RegisterAggregate_invalid_probe Demo.uuids ascii_q World_init
             Demo.unnamed).
    right. exists (mkAggregate "" 1000 0). split; reflexivity.
Defined.

Lemma registry_binding_kept_witness :
  aggregates Demo.w_order !! "Order" = Some Demo.order /\
  aggregates
    (run_calls Demo.uuids ascii_q
       [CallRegister Demo.order_v7; CallCreate "Order" 1;
        CallRegister Demo.invoice; CallRegister Demo.nil_factory;
        CallCreate "Payment" 2]
       Demo.w_order) !! "Order" = Some Demo.order.
Proof.
  assert (Hreg : aggregates Demo.w_order !! "Order" = Some Demo.order)
    by (vm_compute; reflexivity).
  split; [exact Hreg|].
  exact (proj1 (registry_binding_kept Demo.uuids ascii_q _ _ _ _ Hreg)).
Defined.

Lemma RegisterAggregate_panic_message_witness :
  (Demo.register Demo.order_v7 Demo.w_order).1
    = Panics (msg_duplicate ascii_q "Order") /\
  names ascii_q (msg_duplicate ascii_q "Order") "Order".
Proof.
  assert (Hpanic : (Demo.register Demo.order_v7 Demo.w_order).1
                   = Panics (msg_duplicate ascii_q "Order"))
    by (vm_compute; reflexivity).
  split; [exact Hpanic|].
  destruct (RegisterAggregate_panic_message Demo.uuids ascii_q _ _ _ Hpanic)
    as [[Hnil _] | [(a & Ha & Hempty & _) | (a & Ha & _ & _ & _ & Hnames)]].
  - discriminate Hnil.
  - injection Ha as <-. discriminate Hempty.
  - injection Ha as <-. exact Hnames.
Defined.

(** C8 as it is written fails: a factory whose probe is nil makes the
    registration panic with the fixed text of line 81, and there is no type
    name that the message could carry. *)
Lemma not_every_panic_names_type :
  ~ every_panic_names_type Demo.uuids ascii_q.
Proof.
  intros Hclaim.
  destruct (Hclaim World_init Demo.nil_factory msg_nil eq_refl) as (a & Ha & _).
  discriminate Ha.
Qed.

Lemma concurrent_CreateAggregate_witness :
  exists pool w,
    run_schedule Demo.schedule (spawn Demo.requests) Demo.w_two
      = Some (pool, w) /\
    g_pc <$> pool =
      [Returned (Some (mkAggregate "Order" 1 0), None);
       Returned (Some (mkAggregate "Invoice" 2 0), None);
       Returned (Some (mkAggregate "Order" 3 0), None)] /\
    aggregates w = aggregates Demo.w_two /\
    exists pool5 w5,
      run_schedule (take 5 Demo.schedule) (spawn Demo.requests) Demo.w_two
        = Some (pool5, w5) /\
      holders pool5 = 3 /\
      mu_readers (aggregatesMu w5) = 3.
Proof.
  destruct (run_schedule Demo.schedule (spawn Demo.requests) Demo.w_two)
    as [[pool w]|] eqn:Hrun; [|vm_compute in Hrun; discriminate Hrun].
  exists pool, w. split; [reflexivity|].
  assert (Hmu : mu_writer (aggregatesMu Demo.w_two) = false)
    by (vm_compute; reflexivity).
  assert (Hreg : Forall (fun r => is_Some (aggregates Demo.w_two !! r.1))
                   Demo.requests).
  { repeat constructor; vm_compute; eexists; reflexivity. }
  destruct (concurrent_CreateAggregate Demo.uuids ascii_q Demo.requests
              Demo.w_two _ pool w Hmu Hreg (run_schedule_nsteps _ _ _ _ Hrun))
    as (_ & _ & _ & _ & Hmap & _).
  split; [vm_compute in Hrun; injection Hrun as <- _; reflexivity|].
  split; [exact Hmap|].
  destruct (run_schedule (take 5 Demo.schedule) (spawn Demo.requests) Demo.w_two)
    as [[pool5 w5]|] eqn:Hrun5; [|vm_compute in Hrun5; discriminate Hrun5].
  exists pool5, w5. split; [reflexivity|].
  assert (Hholders : holders pool5 = 3)
    by (vm_compute in Hrun5; injection Hrun5 as <- _; reflexivity).
  split; [exact Hholders|].
  destruct (concurrent_CreateAggregate Demo.uuids ascii_q Demo.requests
              Demo.w_two _ pool5 w5 Hmu Hreg (run_schedule_nsteps _ _ _ _ Hrun5))
    as (_ & _ & _ & _ & _ & _ & _ & _ & Hreaders & _).
  rewrite Hreaders, Hholders. reflexivity.
Defined.

Lemma CreateAggregate_no_validation_witness :
  Demo.register Demo.only_1000 World_init
    = (Returns tt, (Demo.register Demo.only_1000 World_init).2) /\
  Demo.only_1000 42 = None /\
  (CreateAggregate "Invoice" 42 (Demo.register Demo.only_1000 World_init).2).1
    = Returns (None, None).
Proof.
  assert (Hreg : Demo.register Demo.only_1000 World_init
                 = (Returns tt, (Demo.register Demo.only_1000 World_init).2))
    by (vm_compute; reflexivity).
  split_and!; [exact Hreg|reflexivity|].
  exact (f_equal fst
           (CreateAggregate_no_validation Demo.uuids ascii_q World_init
              Demo.only_1000 _ (mkAggregate "Invoice" 1000 0) 42
              Hreg eq_refl eq_refl)).
Defined.

(** A registration at process start, event by event. *)
Example register_order_trace :
  trace Demo.w_order =
  [EvNewUUID 1000; EvFactory Demo.order 1000; EvLock; EvMapRead "Order";
   EvMapWrite "Order" Demo.order; EvUnlock].
Proof. vm_compute. reflexivity. Qed.

(** A registration waits while a reader holds the mutex, and so does a
    creation while a writer holds it. *)
Example register_waits_for_reader :
  (Demo.register Demo.order (set_mu (mkRWMutex false 1) World_init)).1 = Blocks.
Proof. vm_compute. reflexivity. Qed.

Example create_waits_for_writer :
  (CreateAggregate "Order" 42 (set_mu (mkRWMutex true 0) Demo.w_order)).1 = Blocks.
Proof. vm_compute. reflexivity. Qed.

(** Two creations at once: both hold the mutex for reading after two steps. *)
Example two_readers_inside :
  (fun s => aggregatesMu s.2) <$>
    run_schedule [0; 1] (spawn [("Order", 1); ("Order", 2)]) Demo.w_order
  = Some (mkRWMutex false 2).
Proof. vm_compute. reflexivity. Qed.

(** ** Further statements at work on concrete runs *)

Lemma registry_bindings_validated_witness :
  aggregates (run_calls Demo.uuids ascii_q Demo.after_panics World_init) !! "Invoice"
    = Some Demo.invoice /\
  validated Demo.uuids (run_calls Demo.uuids ascii_q Demo.after_panics World_init)
    "Invoice" Demo.invoice.
Proof.
  assert (Hf : aggregates (run_calls Demo.uuids ascii_q Demo.after_panics World_init)
                 !! "Invoice" = Some Demo.invoice) by (vm_compute; reflexivity).
  split; [exact Hf|].
  exact (registry_bindings_validated Demo.uuids ascii_q _ _ _ Hf).
Defined.

Lemma sequential_calls_never_wait_witness :
  aggregatesMu (World_init (UUID := nat)) = RWMutex_zero /\
  call_outcome Demo.uuids ascii_q
    (run_calls Demo.uuids ascii_q Demo.after_panics World_init)
    (CallCreate "Order" 1) <> Blocks /\
  aggregatesMu
    (run_calls Demo.uuids ascii_q (Demo.after_panics ++ [CallCreate "Order" 1])
       World_init) = RWMutex_zero.
Proof.
  split; [reflexivity|].
  apply (sequential_calls_never_wait Demo.uuids ascii_q). reflexivity.
Defined.

Lemma registration_order_irrelevant_witness :
  Demo.three ≡ₚ Demo.three_rotated /\
  NoDup Demo.three.*1 /\
  Forall (fun r => builds_type r.2 r.1) Demo.three /\
  aggregates
    (run_calls Demo.uuids ascii_q ((fun r => CallRegister r.2) <$> Demo.three)
       Demo.w_order) =
  aggregates
    (run_calls Demo.uuids ascii_q ((fun r => CallRegister r.2) <$> Demo.three_rotated)
       Demo.w_order).
Proof.
  assert (Hperm : Demo.three ≡ₚ Demo.three_rotated)
    by exact (Permutation_cons_append
                [("Invoice", Demo.invoice); ("", Demo.unnamed)]
                ("Order", Demo.order)).
  assert (Hnd : NoDup Demo.three.*1)
    by (apply (bool_decide_unpack _); vm_compute; reflexivity).
  assert (Hall : Forall (fun r => builds_type r.2 r.1) Demo.three)
    by (repeat constructor; intros u; eexists; split; reflexivity).
  split_and!; [exact Hperm|exact Hnd|exact Hall|].
  exact (registration_order_irrelevant Demo.uuids ascii_q _ _ _ Hperm Hnd Hall).
Defined.

Lemma registry_mutual_exclusion_witness :
  exists tasks w,
    run_tasks Demo.uuids ascii_q Demo.race_first (start_task <$> Demo.race)
      Demo.w_invoice = Some (tasks, w) /\
    tasks !! 2 = Some (Registering Demo.order_v7 (RAtStore "Order")) /\
    forall j kj, 2 <> j -> tasks !! j = Some kj ->
      in_write_section kj = false /\ in_read_section kj = false.
Proof.
  assert (Hmu : aggregatesMu Demo.w_invoice = RWMutex_zero)
    by (vm_compute; reflexivity).
  destruct (run_tasks Demo.uuids ascii_q Demo.race_first (start_task <$> Demo.race)
              Demo.w_invoice) as [[tasks w]|] eqn:Hrun;
    [|vm_compute in Hrun; discriminate Hrun].
  pose proof (run_tasks_nsteps _ _ _ _ _ _ Hrun) as Hsteps.
  exists tasks, w. split; [reflexivity|].
  assert (H2 : tasks !! 2 = Some (Registering Demo.order_v7 (RAtStore "Order"))).
  { vm_compute in Hrun. injection Hrun as <- _. reflexivity. }
  split; [exact H2|]. intros j kj Hne Hj.
  exact (registry_mutual_exclusion Demo.uuids ascii_q _ _ _ _ _ 2 j _ kj
           Hmu Hsteps Hne H2 Hj eq_refl).
Defined.

Lemma concurrent_bindings_kept_witness :
  exists s1 s2,
    run_tasks Demo.uuids ascii_q (Demo.race_first ++ [2]) (start_task <$> Demo.race)
      Demo.w_invoice = Some s1 /\
    run_tasks Demo.uuids ascii_q (drop 1 Demo.race_rest) s1.1 s1.2 = Some s2 /\
    aggregates s1.2 !! "Order" = Some Demo.order_v7 /\
    aggregates s2.2 !! "Order" = Some Demo.order_v7.
Proof.
  assert (Hmu : aggregatesMu Demo.w_invoice = RWMutex_zero)
    by (vm_compute; reflexivity).
  destruct (run_tasks Demo.uuids ascii_q (Demo.race_first ++ [2])
              (start_task <$> Demo.race) Demo.w_invoice) as [s1|] eqn:Hrun1;
    [|vm_compute in Hrun1; discriminate Hrun1].
  destruct (run_tasks Demo.uuids ascii_q (drop 1 Demo.race_rest) s1.1 s1.2)
    as [s2|] eqn:Hrun2.
  2: { vm_compute in Hrun1. injection Hrun1 as <-.
       vm_compute in Hrun2. discriminate Hrun2. }
  exists s1, s2. split; [reflexivity|]. split; [exact Hrun2|].
  assert (Hf : aggregates s1.2 !! "Order" = Some Demo.order_v7).
  { vm_compute in Hrun1. injection Hrun1 as <-. reflexivity. }
  split; [exact Hf|].
  pose proof (run_tasks_nsteps _ _ _ _ _ _ Hrun1) as Hsteps1.
  pose proof (run_tasks_nsteps _ _ _ _ _ _ Hrun2) as Hsteps2.
  rewrite <- surjective_pairing in Hsteps2.
  exact (concurrent_bindings_kept Demo.uuids ascii_q _ _ _ _ _ _ _ _
           Hmu Hsteps1 Hsteps2 Hf).
Defined.

Lemma registry_never_deadlocks_witness :
  exists tasks w,
    run_tasks Demo.uuids ascii_q Demo.race_first (start_task <$> Demo.race)
      Demo.w_invoice = Some (tasks, w) /\
    length Demo.race_first + tasks_left tasks <= 6 * length Demo.race /\
    (Forall (fun k => task_done k = true) tasks \/
     exists i k s',
       tasks !! i = Some k /\ task_step Demo.uuids ascii_q k w = Some s' /\
       (at_RLock k = true -> Forall (fun k => at_Lock k = false) tasks)).
Proof.
  assert (Hmu : aggregatesMu Demo.w_invoice = RWMutex_zero)
    by (vm_compute; reflexivity).
  destruct (run_tasks Demo.uuids ascii_q Demo.race_first (start_task <$> Demo.race)
              Demo.w_invoice) as [[tasks w]|] eqn:Hrun;
    [|vm_compute in Hrun; discriminate Hrun].
  exists tasks, w. split; [reflexivity|].
  exact (registry_never_deadlocks Demo.uuids ascii_q _ _ _ _ _
           Hmu (run_tasks_nsteps _ _ _ _ _ _ Hrun)).
Defined.

Lemma concurrent_create_result_witness :
  exists tasks w,
    run_tasks Demo.uuids ascii_q (Demo.race_first ++ Demo.race_rest)
      (start_task <$> Demo.race) Demo.w_invoice = Some (tasks, w) /\
    tasks !! 3 =
      Some (Creating (mkGoroutine "Invoice" 2
                        (Returned (Some (mkAggregate "Invoice" 2 0), None)))) /\
    forall factory, aggregates Demo.w_invoice !! "Invoice" = Some factory ->
      (Some (mkAggregate "Invoice" 2 0), None) = (factory 2, @None error_value).
Proof.
  assert (Hmu : aggregatesMu Demo.w_invoice = RWMutex_zero)
    by (vm_compute; reflexivity).
  destruct (run_tasks Demo.uuids ascii_q (Demo.race_first ++ Demo.race_rest)
              (start_task <$> Demo.race) Demo.w_invoice) as [[tasks w]|] eqn:Hrun;
    [|vm_compute in Hrun; discriminate Hrun].
  pose proof (run_tasks_nsteps _ _ _ _ _ _ Hrun) as Hsteps.
  exists tasks, w. split; [reflexivity|].
  assert (H3 : tasks !! 3 =
    Some (Creating (mkGoroutine "Invoice" 2
                      (Returned (Some (mkAggregate "Invoice" 2 0), None))))).
  { vm_compute in Hrun. injection Hrun as <- _. reflexivity. }
  split; [exact H3|].
  exact (proj2 (proj2 (concurrent_create_result Demo.uuids ascii_q _ _ _ _ _ 3 _ _
                         Hmu Hsteps H3 eq_refl))).
Defined.

Lemma concurrent_register_outcome_witness :
  exists tasks w,
    run_tasks Demo.uuids ascii_q (Demo.race_first ++ Demo.race_rest)
      (start_task <$> Demo.race) Demo.w_invoice = Some (tasks, w) /\
    tasks !! 0 =
      Some (Registering Demo.order (RDone (Panics (msg_duplicate ascii_q "Order")))) /\
    outcome_ok ascii_q (aggregates w) Demo.order
      (Panics (msg_duplicate ascii_q "Order")).
Proof.
  assert (Hmu : aggregatesMu Demo.w_invoice = RWMutex_zero)
    by (vm_compute; reflexivity).
  destruct (run_tasks Demo.uuids ascii_q (Demo.race_first ++ Demo.race_rest)
              (start_task <$> Demo.race) Demo.w_invoice) as [[tasks w]|] eqn:Hrun;
    [|vm_compute in Hrun; discriminate Hrun].
  pose proof (run_tasks_nsteps _ _ _ _ _ _ Hrun) as Hsteps.
  exists tasks, w. split; [reflexivity|].
  assert (H0 : tasks !! 0 =
    Some (Registering Demo.order (RDone (Panics (msg_duplicate ascii_q "Order"))))).
  { vm_compute in Hrun. injection Hrun as <- _. reflexivity. }
  split; [exact H0|].
  exact (proj2 (concurrent_register_outcome Demo.uuids ascii_q _ _ _ _ _ 0 _ _
                  Hmu Hsteps H0)).
Defined.

Lemma each_name_written_once_witness :
  exists tasks w,
    run_tasks Demo.uuids ascii_q (Demo.race_first ++ Demo.race_rest)
      (start_task <$> Demo.race) Demo.w_invoice = Some (tasks, w) /\
    exists es,
      trace w = trace Demo.w_invoice ++ es /\
      (forall t, map_writes t es <= 1) /\
      (forall t f, EvMapWrite t f ∈ es -> aggregates w !! t = Some f) /\
      (forall t, is_Some (aggregates Demo.w_invoice !! t) -> map_writes t es = 0).
Proof.
  assert (Hmu : aggregatesMu Demo.w_invoice = RWMutex_zero)
    by (vm_compute; reflexivity).
  destruct (run_tasks Demo.uuids ascii_q (Demo.race_first ++ Demo.race_rest)
              (start_task <$> Demo.race) Demo.w_invoice) as [[tasks w]|] eqn:Hrun;
    [|vm_compute in Hrun; discriminate Hrun].
  exists tasks, w. split; [reflexivity|].
  exact (each_name_written_once Demo.uuids ascii_q _ _ _ _ _
           Hmu (run_tasks_nsteps _ _ _ _ _ _ Hrun)).
Defined.

Lemma holders_make_others_wait_witness :
  exists tasks w,
    run_tasks Demo.uuids ascii_q Demo.race_first (start_task <$> Demo.race)
      Demo.w_invoice = Some (tasks, w) /\
    tasks !! 2 = Some (Registering Demo.order_v7 (RAtStore "Order")) /\
    tasks !! 0 = Some (Registering Demo.order (RAtLock "Order")) /\
    task_step Demo.uuids ascii_q (Registering Demo.order (RAtLock "Order")) w = None.
Proof.
  assert (Hmu : aggregatesMu Demo.w_invoice = RWMutex_zero)
    by (vm_compute; reflexivity).
  destruct (run_tasks Demo.uuids ascii_q Demo.race_first (start_task <$> Demo.race)
              Demo.w_invoice) as [[tasks w]|] eqn:Hrun;
    [|vm_compute in Hrun; discriminate Hrun].
  pose proof (run_tasks_nsteps _ _ _ _ _ _ Hrun) as Hsteps.
  exists tasks, w. split; [reflexivity|].
  assert (H2 : tasks !! 2 = Some (Registering Demo.order_v7 (RAtStore "Order")))
    by (vm_compute in Hrun; injection Hrun as <- _; reflexivity).
  assert (H0 : tasks !! 0 = Some (Registering Demo.order (RAtLock "Order")))
    by (vm_compute in Hrun; injection Hrun as <- _; reflexivity).
  split_and!; [exact H2|exact H0|].
  exact (proj1 (proj2 (holders_make_others_wait Demo.uuids ascii_q _ _ _ _ _ 2 0 _ _
                         Hmu Hsteps H2 H0) eq_refl)
           Demo.order "Order" eq_refl).
Defined.
